(** * Orders: totals, fulfilment check, payment and the save signals

    A shallow embedding of [src/orders/models.py]: the [Order] model, its
    manager's [get_or_new], the methods [update_total], [check_done] and
    [mark_paid], and the three signal receivers connected to [pre_save] and
    [post_save].

    Representation choices.
    - Money.  A [DecimalField(decimal_places=2)] value is kept as its integer
      number of hundredths (cents) in [Z].
    - Floats.  [math.fsum] works on binary64 numbers.  A finite binary64
      number is represented by the rational it denotes; the operations round
      to nearest, ties to even, at 53 bits of precision ([RN]).  The exponent
      range is not bounded: a [DecimalField(max_digits=100)] amount lies
      between 10^-2 and 10^98 in magnitude, inside the normal range of
      binary64, where overflow and subnormal numbers do not occur.
    - Store.  The order table is a finite map from primary keys to rows, the
      cart table a finite map from cart ids to carts.
    - Instances.  A Python model instance is a record value threaded through
      the calls that mutate it; [pk = None] means "not saved yet". *)

From Stdlib Require Import ZArith QArith Qround Qabs Qpower Lqa Lia.
From stdpp Require Import gmap strings pretty.

Local Open Scope Z_scope.

(** ** Binary64 arithmetic on exact rationals *)

Module Float.

(** Round a rational to the nearest integer, ties to the even one. *)
Definition round_half_even (x : Q) : Z :=
  let f := Qfloor x in
  match (x - inject_Z f ?= 1 # 2)%Q with
  | Lt => f
  | Gt => f + 1
  | Eq => if Z.even f then f else f + 1
  end.

(** [ilog2 x] is the integer [k] with [2^k <= x < 2^(k+1)], for [x > 0]. *)
Definition ilog2 (x : Q) : Z :=
  let k := Z.log2 (Qnum x) - Z.log2 (Zpos (Qden x)) in
  if Qle_bool (2 ^ k) x then k else k - 1.

(** The number of significand bits of binary64. *)
Definition prec : Z := 53.

(** Round to nearest even at [prec] bits: the value of the binary64 number
    nearest to [x]. *)
Definition RN (x : Q) : Q :=
  match Qnum x with
  | Z0 => 0%Q
  | _ =>
      let e := ilog2 (Qabs x) - (prec - 1) in
      Qred (inject_Z (round_half_even (x / 2 ^ e)) * 2 ^ e)
  end.

(** [float(d)] for a [Decimal] [d] of [c] hundredths: the conversion is
    correctly rounded. *)
Definition of_cents (c : Z) : Q := RN (c # 100).

(** [math.fsum(xs)]: the exact sum of the floats, rounded once. *)
Definition fsum (xs : list Q) : Q := RN (foldr Qplus 0%Q xs).

(** The number of hundredths printed by [format(x, '.2f')]: the exact value
    of [x] rounded to two decimals, ties to even. *)
Definition quantize_2f (x : Q) : Z := round_half_even (x * 100).

(** [format(x, '.2f')]: sign, integer part, point, two digits. *)
Definition format_2f (x : Q) : string :=
  let c := Z.abs (quantize_2f x) in
  let frac := c mod 100 in
  (if Qle_bool 0 x then "" else "-")
  +:+ pretty (c / 100) +:+ "."
  +:+ (if frac <? 10 then "0" else "") +:+ pretty frac.

End Float.

(** ** Data model *)

(** [carts.models.Cart], as far as this module reads it. *)
Record Cart := {
  cart_id : nat;
  cart_total : Z;
  is_digital : bool }.

(** An [Order] instance.  Foreign keys to billing profiles and addresses are
    [None] or the key of the related object; [cart] is the related [Cart]
    object that [self.cart] yields.

    [total] is the amount the attribute [self.total] denotes, and
    [total_is_str] tells what kind of Python value holds it: a number (the
    float default of a new instance, or the [Decimal] read from the row)
    when [false], the '.2f' string that [update_total] assigns when [true].
    The [DecimalField] stores either as the same decimal.

    The two timestamps ([timestamp], and [updated], which every save
    rewrites) are left out: no method or receiver of this module reads
    them, and nothing below speaks of them. *)
Record Order := {
  pk : option nat;
  order_id : string;
  billing_profile : option nat;
  shipping_address : option nat;
  billing_address : option nat;
  cart : Cart;
  status : string;
  shipping_total : Z;
  total : Z;
  total_is_str : bool;
  active : bool }.

(** A row of the order table; the primary key is the key of the table. *)
Record OrderRow := {
  row_order_id : string;
  row_billing_profile : option nat;
  row_shipping_address : option nat;
  row_billing_address : option nat;
  row_cart : nat;
  row_status : string;
  row_shipping_total : Z;
  row_total : Z;
  row_active : bool }.

(** The database, and a counter standing for the randomness consumed by the
    identifier generator. *)
Record World := {
  orders : gmap nat OrderRow;
  carts : gmap nat Cart;
  entropy : nat }.

Definition set_pk (k : nat) (o : Order) : Order :=
  {| pk := Some k; order_id := order_id o;
     billing_profile := billing_profile o;
     shipping_address := shipping_address o;
     billing_address := billing_address o; cart := cart o;
     status := status o; shipping_total := shipping_total o;
     total := total o; total_is_str := total_is_str o;
     active := active o |}.

Definition set_order_id (s : string) (o : Order) : Order :=
  {| pk := pk o; order_id := s;
     billing_profile := billing_profile o;
     shipping_address := shipping_address o;
     billing_address := billing_address o; cart := cart o;
     status := status o; shipping_total := shipping_total o;
     total := total o; total_is_str := total_is_str o;
     active := active o |}.

Definition set_status (s : string) (o : Order) : Order :=
  {| pk := pk o; order_id := order_id o;
     billing_profile := billing_profile o;
     shipping_address := shipping_address o;
     billing_address := billing_address o; cart := cart o;
     status := s; shipping_total := shipping_total o;
     total := total o; total_is_str := total_is_str o;
     active := active o |}.

(** [self.total = format(..., '.2f')]: the attribute now holds a string. *)
Definition set_total (t : Z) (o : Order) : Order :=
  {| pk := pk o; order_id := order_id o;
     billing_profile := billing_profile o;
     shipping_address := shipping_address o;
     billing_address := billing_address o; cart := cart o;
     status := status o; shipping_total := shipping_total o;
     total := t; total_is_str := true; active := active o |}.

(** [order.billing_address = address], as the callers of the module do
    before [check_done] and [mark_paid]. *)
Definition set_billing_address (a : option nat) (o : Order) : Order :=
  {| pk := pk o; order_id := order_id o;
     billing_profile := billing_profile o;
     shipping_address := shipping_address o;
     billing_address := a; cart := cart o;
     status := status o; shipping_total := shipping_total o;
     total := total o; total_is_str := total_is_str o;
     active := active o |}.

Definition set_row_active (b : bool) (r : OrderRow) : OrderRow :=
  {| row_order_id := row_order_id r;
     row_billing_profile := row_billing_profile r;
     row_shipping_address := row_shipping_address r;
     row_billing_address := row_billing_address r;
     row_cart := row_cart r; row_status := row_status r;
     row_shipping_total := row_shipping_total r;
     row_total := row_total r; row_active := b |}.

Definition set_orders (m : gmap nat OrderRow) (w : World) : World :=
  {| orders := m; carts := carts w; entropy := entropy w |}.

Definition tick (w : World) : World :=
  {| orders := orders w; carts := carts w; entropy := S (entropy w) |}.

(** The column values written for an instance. *)
Definition to_row (o : Order) : OrderRow :=
  {| row_order_id := order_id o;
     row_billing_profile := billing_profile o;
     row_shipping_address := shipping_address o;
     row_billing_address := billing_address o;
     row_cart := cart_id (cart o);
     row_status := status o;
     row_shipping_total := shipping_total o;
     row_total := total o;
     row_active := active o |}.

(** The instance built from row [k], with its cart [c] resolved. *)
Definition from_row (k : nat) (r : OrderRow) (c : Cart) : Order :=
  {| pk := Some k;
     order_id := row_order_id r;
     billing_profile := row_billing_profile r;
     shipping_address := row_shipping_address r;
     billing_address := row_billing_address r;
     cart := c;
     status := row_status r;
     shipping_total := row_shipping_total r;
     total := row_total r;
     total_is_str := false;
     active := row_active r |}.

(** [Order(billing_profile=..., cart=...)]: the field defaults of the model
    ([shipping_total] 50.00, [total] 0.00, [status] 'created', active). *)
Definition new_order (bp : option nat) (c : Cart) : Order :=
  {| pk := None;
     order_id := "";
     billing_profile := bp;
     shipping_address := None;
     billing_address := None;
     cart := c;
     status := "created";
     shipping_total := 5000;
     total := 0;
     total_is_str := false;
     active := true |}.

(** Python's truth value of a nullable foreign key: [None] is false, a
    model instance is true. *)
Definition truthy {A} (o : option A) : bool :=
  match o with Some _ => true | None => false end.

(** ** Computations on the database: state with failure *)

Definition M (A : Type) : Type := World → option (A * World).

Definition ret {A} (a : A) : M A := λ w, Some (a, w).

Definition bind {A B} (m : M A) (k : A → M B) : M B :=
  λ w, match m w with
       | Some (a, w') => k a w'
       | None => None
       end.

(** An exception that nothing catches: [RecursionError] in [save],
    [TypeError] in [check_done], [DoesNotExist] in [first]. *)
Definition raise {A} : M A := λ _, None.

Notation "x <- m ;; k" := (bind m (λ x, k))
  (at level 100, m at next level, right associativity).

(** ** Query sets over the order table

    A query set is its row condition and is evaluated against the table
    at the moment it is counted, read or updated. *)

Definition QuerySet : Type := OrderRow → bool.

Definition rows (qs : QuerySet) (w : World) : gmap nat OrderRow :=
  filter (λ kr, qs kr.2 = true) (orders w).

Definition count (qs : QuerySet) : M nat :=
  λ w, Some (size (rows qs w), w).

Definition exists_ (qs : QuerySet) : M bool :=
  λ w, Some (bool_decide (rows qs w ≠ ∅), w).

(** [qs.update(active=b)]: one UPDATE over the matching rows. *)
Definition update_active (qs : QuerySet) (b : bool) : M unit :=
  λ w, Some (tt, set_orders
                   ((λ r, if qs r then set_row_active b r else r) <$> orders w)
                   w).

(** [qs.first()].  It is only called after [qs.count() == 1], on query
    sets that hold one row, so the [Meta.ordering] of the model does not
    matter; on an empty query set Django returns [None], and the method call
    that follows in both callers would raise: here [first] fails at once.
    Django reads the related cart at the first access to [order.cart]; here
    it is read at once, so that with a missing cart row [first] already
    fails where the code fails only at [self.cart].  The foreign key is
    required: with the cart row in place the two agree. *)
Definition first (qs : QuerySet) : M Order :=
  λ w, match map_to_list (rows qs w) with
       | (k, r) :: _ =>
           match carts w !! row_cart r with
           | Some c => Some (from_row k r c, w)
           | None => None
           end
       | [] => None
       end.

(** ** The model, its manager and the signal receivers *)

(** [Order.objects.filter(cart=instance.cart)
      .exclude(billing_profile=instance.billing_profile)]: the orders on the
    instance's cart that belong to another billing profile, or to none when
    the instance has one.  ([exclude] is the complement of [filter] also on
    NULL columns.) *)
Definition siblings (instance : Order) : QuerySet :=
  λ r, bool_decide (row_cart r = cart_id (cart instance))
       && negb (bool_decide (row_billing_profile r = billing_profile instance)).

(** The value [update_total] assigns to [self.total]:
    [format(math.fsum([self.cart.total, self.shipping_total]), '.2f')],
    read back as a decimal. *)
Definition new_total (self : Order) : Z :=
  Float.quantize_2f
    (Float.fsum [Float.of_cents (cart_total (cart self));
                 Float.of_cents (shipping_total self)]).

(** The query set of [get_or_new]:
    [filter(billing_profile=..., cart=..., active=True, status='created')]. *)
Definition open_orders (bp : option nat) (cart_obj : Cart) : QuerySet :=
  λ r, bool_decide (row_billing_profile r = bp)
       && bool_decide (row_cart r = cart_id cart_obj)
       && bool_decide (row_active r = true)
       && bool_decide (row_status r = "created").

(** The query set of the cart receiver: [filter(cart__id=instance.id)]. *)
Definition cart_orders (instance : Cart) : QuerySet :=
  λ r, bool_decide (row_cart r = cart_id instance).

Section Orders.

(** Modelled from the spec: [unique_order_id_generator] of [kart.utils] is
    not part of the sources at hand.  It draws a random string and queries
    the order table, so it is a function of the world (table and entropy)
    and of the instance. *)
Variable unique_order_id_generator : World → Order → string.

(** [order_id_pre_save_receiver], connected to [pre_save] of [Order]. *)
Definition order_id_pre_save_receiver (instance : Order) : M Order :=
  instance <-
    (if bool_decide (order_id instance = "")
     then λ w, Some (set_order_id (unique_order_id_generator w instance)
                       instance, tick w)
     else ret instance);;
  let qs := siblings instance in
  e <- exists_ qs;;
  if e : bool then _ <- update_active qs false;; ret instance
  else ret instance.

(** The table write of [Model.save]: an UPDATE of the row with the
    instance's key when there is one, an INSERT otherwise.  The boolean is
    the [created] flag later handed to [post_save]. *)
Definition save_table (self : Order) : M (Order * bool) :=
  λ w, match pk self with
       | Some k =>
           Some ((self, bool_decide (orders w !! k = None)),
                 set_orders (<[k := to_row self]> (orders w)) w)
       | None =>
           let k := fresh (dom (orders w)) in
           Some ((set_pk k self, true),
                 set_orders (<[k := to_row self]> (orders w)) w)
       end.

(** [Order.update_total], over the [save] it calls. *)
Definition Order_update_total (save : Order → M Order) (self : Order)
  : M (Z * Order) :=
  let self := set_total (new_total self) self in
  self <- save self;;
  ret (total self, self).

(** [order_post_save_receiver], connected to [post_save] of [Order]. *)
Definition order_post_save_receiver (update_total : Order → M (Z * Order))
    (instance : Order) (created : bool) : M Order :=
  if created then r <- update_total instance;; ret r.2
  else ret instance.

(** [Order.save]: [pre_save] receivers, the table write, [post_save]
    receivers.  [save] and [update_total] call each other; [fuel] bounds
    the depth of nested saves, and running out of it is Python's
    [RecursionError]. *)
Fixpoint save (fuel : nat) (self : Order) : M Order :=
  match fuel with
  | O => raise
  | S fuel' =>
      self <- order_id_pre_save_receiver self;;
      r <- save_table self;;
      order_post_save_receiver (Order_update_total (save fuel')) r.1 r.2
  end.

Definition update_total (fuel : nat) (self : Order) : M (Z * Order) :=
  Order_update_total (save fuel) self.

(** [Order.check_done].  The [and] chain is evaluated from the left and
    stops at the first false operand, so [self.total > 0] is reached only
    when the three operands before it are true.  There a total that is a
    string cannot be compared with [0]: Python 3 raises [TypeError]
    ([None]). *)
Definition check_done (self : Order) : option bool :=
  let shipping_address_required := negb (is_digital (cart self)) in
  let shipping_done :=
    if shipping_address_required
    then (if truthy (shipping_address self) then true else false)
    else true in
  if truthy (billing_profile self)
     && shipping_done
     && truthy (billing_address self)
  then
    if total_is_str self then None
    else if 0 <? total self then Some true else Some false
  else Some false.

(** [Order.mark_paid].  The exception of [check_done] is not caught; it
    leaves the method before anything is assigned or saved. *)
Definition mark_paid (fuel : nat) (self : Order) : M (string * Order) :=
  if negb (bool_decide (status self = "paid")) then
    match check_done self with
    | None => raise
    | Some true =>
        self <- save fuel (set_status "paid" self);;
        ret (status self, self)
    | Some false => ret (status self, self)
    end
  else ret (status self, self).

(** [Order.objects.create(billing_profile=..., cart=...)]. *)
Definition create (fuel : nat) (bp : option nat) (cart_obj : Cart) : M Order :=
  save fuel (new_order bp cart_obj).

(** [OrderManager.get_or_new]. *)
Definition get_or_new (fuel : nat) (bp : option nat) (cart_obj : Cart)
  : M (Order * bool) :=
  let qs := open_orders bp cart_obj in
  n <- count qs;;
  if bool_decide (n = 1%nat) then obj <- first qs;; ret (obj, false)
  else obj <- create fuel bp cart_obj;; ret (obj, true).

(** [cart_total_post_save_receiver], connected to [post_save] of [Cart];
    it runs once the cart row has been written. *)
Definition cart_total_post_save_receiver (fuel : nat) (instance : Cart)
    (created : bool) : M unit :=
  if negb created then
    let qs := cart_orders instance in
    n <- count qs;;
    if bool_decide (n = 1%nat) then
      order_obj <- first qs;;
      _ <- update_total fuel order_obj;;
      ret tt
    else ret tt
  else ret tt.

(** *** Closed forms of the receivers' effects, used to state the facts *)

(** The instance after the [pre_save] receiver. *)
Definition pre_instance (i : Order) (w : World) : Order :=
  if bool_decide (order_id i = "")
  then set_order_id (unique_order_id_generator w i) i else i.

(** One round of [save]: the receivers of [pre_save], then the table
    write. *)
Definition save_once (self : Order) : M (Order * bool) :=
  self <- order_id_pre_save_receiver self;; save_table self.

End Orders.

(** What [siblings instance].update(active=False) does to one row. *)
Definition deactivate (instance : Order) (r : OrderRow) : OrderRow :=
  if siblings instance r then set_row_active false r else r.

(** The world after the [pre_save] receiver. *)
Definition pre_world (i : Order) (w : World) : World :=
  set_orders (deactivate i <$> orders w)
    (if bool_decide (order_id i = "") then tick w else w).

(** Whether saving [self] inserts a row: it has no key yet, or no row
    carries its key.  This is the [created] flag of [post_save]. *)
Definition is_insert (self : Order) (w : World) : bool :=
  match pk self with
  | Some k => bool_decide (orders w !! k = None)
  | None => true
  end.

(** The fields that no method or receiver of this module assigns. *)
Definition same_fields (a b : Order) : Prop :=
  billing_profile b = billing_profile a ∧
  shipping_address b = shipping_address a ∧
  billing_address b = billing_address a ∧
  cart b = cart a ∧
  status b = status a ∧
  shipping_total b = shipping_total a ∧
  active b = active a.

(** The instance is the current row of its key: the row of [self] is the
    one that was written for [self]. *)
Definition persisted (self : Order) (w : World) : Prop :=
  ∃ k, pk self = Some k ∧ orders w !! k = Some (to_row self).

(** Every order other than [self] that shares its cart and belongs to
    another billing profile is inactive. *)
Definition siblings_inactive (self : Order) (w : World) : Prop :=
  ∀ j r, orders w !! j = Some r → pk self ≠ Some j →
         row_cart r = cart_id (cart self) →
         row_billing_profile r ≠ billing_profile self →
         row_active r = false.

(** No row loses or changes an identifier it has. *)
Definition keeps_order_ids (w w' : World) : Prop :=
  ∀ j r, orders w !! j = Some r → row_order_id r ≠ "" →
         ∃ r', orders w' !! j = Some r' ∧ row_order_id r' = row_order_id r.

(** An instance that carries the identifier of its row, as every instance
    read from the table or returned by [save] does. *)
Definition coherent (self : Order) (w : World) : Prop :=
  ∀ k r, pk self = Some k → orders w !! k = Some r →
         row_order_id r ≠ "" → order_id self = row_order_id r.

(** What a completed [save] has done. *)
Record saved (gen : World → Order → string) (self : Order) (w : World)
    (self' : Order) (w' : World) (k : nat) : Prop := {
  saved_pk : pk self' = Some k;
  saved_pk_old : ∀ k0, pk self = Some k0 → k0 = k;
  saved_pk_new : pk self = None → orders w !! k = None;
  saved_orders :
    orders w' = <[k := to_row self']> (deactivate self <$> orders w);
  saved_carts : carts w' = carts w;
  saved_fields : same_fields self self';
  saved_order_id : order_id self ≠ "" → order_id self' = order_id self;
  saved_order_id_new :
    order_id self = "" → ∃ w0 i0, order_id self' = gen w0 i0;
  saved_total :
    total self' = if is_insert self w then new_total self else total self }.

(** Modelled from the spec: the contract of [unique_order_id_generator]
    ([kart.utils], not part of the sources at hand): the identifier it
    returns is an "opaque unique string", and "order_id is non-empty after
    the first persistence". *)
Definition generator_contract (gen : World → Order → string) : Prop :=
  ∀ w i, gen w i ≠ "".

(** ** The other methods of the query set, the manager and the model *)

(** [ORDER_STATUS_CHOICES]: database value and display value. *)
Definition ORDER_STATUS_CHOICES : list (string * string) :=
  [("created", "Created"); ("paid", "Paid"); ("shipped", "Shipped");
   ("refunded", "Refunded"); ("cancelled", "Cancelled");
   ("delivered", "Delivered")].

(** [Order.get_status]. *)
Definition get_status (self : Order) : string :=
  if bool_decide (status self = "shipped") then "Shipped"
  else if bool_decide (status self = "refunded") then "Refunded"
  else if bool_decide (status self = "cancelled") then "Cancelled"
  else if bool_decide (status self = "delivered") then "Delivered"
  else "Shipping Soon".

(** [OrderManager.get_queryset]: every order. *)
Definition get_queryset : QuerySet := λ _, true.

(** [OrderQuerySet.not_created]: [self.exclude(status='created')]. *)
Definition not_created (self : QuerySet) : QuerySet :=
  λ r, self r && negb (bool_decide (row_status r = "created")).

Section ByRequest.

(** Requests, and [BillingProfile.objects.get_or_new] of [billing.models],
    which is not part of the sources at hand: it yields the billing profile
    of the request ([None] when there is none) and whether it was just
    created.  What it does to the billing tables lies outside the order
    and cart tables. *)
Variable Request : Type.
Variable BillingProfile_get_or_new : Request → option nat * bool.

(** [OrderQuerySet.by_request]. *)
Definition by_request (self : QuerySet) (request : Request) : QuerySet :=
  let (billing_profile, created) := BillingProfile_get_or_new request in
  λ r, self r && bool_decide (row_billing_profile r = billing_profile).

(** [OrderManager.by_request]. *)
Definition OrderManager_by_request (request : Request) : QuerySet :=
  by_request get_queryset request.

End ByRequest.

(** [k] is the key of a row of the query set. *)
Definition listed (qs : QuerySet) (w : World) (k : nat) : Prop :=
  is_Some (rows qs w !! k).

(** ** Sample data *)

(** A generator in the manner of the original: a prefix and a number drawn
    from the entropy. *)
Definition sample_generator (w : World) (_ : Order) : string :=
  "ORD" +:+ pretty (entropy w).

Definition sample_cart : Cart :=
  {| cart_id := 7; cart_total := 10000; is_digital := true |}.

Definition physical_cart : Cart :=
  {| cart_id := 8; cart_total := 10000; is_digital := false |}.

(** A cart worth 70 368 744 177 614.01. *)
Definition huge_cart : Cart :=
  {| cart_id := 9; cart_total := 7036874417761401; is_digital := true |}.

Definition empty_world : World :=
  {| orders := ∅; carts := ∅; entropy := 0 |}.

(** A guest's order (billing profile 1) on [sample_cart], saved as row 0. *)
Definition guest_row : OrderRow :=
  {| row_order_id := "GUEST00001";
     row_billing_profile := Some 1%nat;
     row_shipping_address := None;
     row_billing_address := None;
     row_cart := 7;
     row_status := "created";
     row_shipping_total := 5000;
     row_total := 15000;
     row_active := true |}.

Definition guest_world : World :=
  {| orders := {[ 0%nat := guest_row ]};
     carts := {[ 7%nat := sample_cart ]};
     entropy := 1 |}.

(** An order ready to be paid: billing profile and billing address set, no
    shipping address, total the number 150.00. *)
Definition ready_order (c : Cart) : Order :=
  {| pk := None;
     order_id := "";
     billing_profile := Some 1%nat;
     shipping_address := None;
     billing_address := Some 4%nat;
     cart := c;
     status := "created";
     shipping_total := 5000;
     total := 15000;
     total_is_str := false;
     active := true |}.

(** From [w] to [w'] the cart table is the same and no order row other than
    [k] was added, removed or changed, except that active orders on the
    cart [c] may have been made inactive. *)
Definition only_touches (k c : nat) (w w' : World) : Prop :=
  carts w' = carts w ∧
  (∀ j, j ≠ k → orders w !! j = None → orders w' !! j = None) ∧
  (∀ j r, j ≠ k → orders w !! j = Some r →
     ∃ r', orders w' !! j = Some r' ∧
           set_row_active false r' = set_row_active false r ∧
           (row_cart r ≠ c → r' = r) ∧
           (row_active r = false → r' = r)).

(** Two open orders of billing profile 1 on [sample_cart]: the anomaly
    [get_or_new] meets with a count of two. *)
Definition duplicate_world : World :=
  {| orders := {[ 0%nat := guest_row; 1%nat := guest_row ]};
     carts := {[ 7%nat := sample_cart ]};
     entropy := 2 |}.

(** The ready order on [sample_cart], saved as row 0. *)
Definition ready_world : World :=
  {| orders := {[ 0%nat := to_row (ready_order sample_cart) ]};
     carts := {[ 7%nat := sample_cart ]};
     entropy := 1 |}.

(** * Facts *)

(** ** Rounding *)

Section FloatFacts.
Import Float.
Local Open Scope Q_scope.

(** The model agrees with CPython on sample values:
    [float(Decimal('0.01')).as_integer_ratio()] and
    [float(Decimal('0.10')).as_integer_ratio()]. *)
Example of_cents_1 : of_cents 1 = 5764607523034235 # 576460752303423488.
Proof. reflexivity. Qed.

Example of_cents_10 : of_cents 10 = 3602879701896397 # 36028797018963968.
Proof. reflexivity. Qed.

(** [format(math.fsum([Decimal('-853170903820505.71'), 50.00]), '.2f')] is
    ['-853170903820455.75'], and
    [format(math.fsum([Decimal('0.10'), Decimal('0.20')]), '.2f')] is
    ['0.30']. *)
Example format_2f_samples :
  format_2f (fsum [of_cents (-85317090382050571); of_cents 5000])
    = "-853170903820455.75"
  ∧ format_2f (fsum [of_cents 10; of_cents 20]) = "0.30".
Proof. split; vm_compute; reflexivity. Qed.

Example ilog2_samples :
  ilog2 (1 # 100) = (-7)%Z ∧ ilog2 255 = 7%Z ∧ ilog2 256 = 8%Z.
Proof. done. Qed.

Lemma round_half_even_bounds (x : Q) :
  x - (1#2) <= inject_Z (round_half_even x) <= x + (1#2).
Proof.
  unfold round_half_even.
  pose proof (Qfloor_le x) as Hlo.
  pose proof (Qlt_floor x) as Hhi.
  rewrite inject_Z_plus in Hhi.
  change (inject_Z 1) with 1 in Hhi.
  destruct (Qcompare_spec (x - inject_Z (Qfloor x)) (1#2)) as [He|Hl|Hg].
  - destruct (Z.even (Qfloor x)); rewrite ?inject_Z_plus;
      change (inject_Z 1) with 1; split; lra.
  - split; lra.
  - rewrite inject_Z_plus; change (inject_Z 1) with 1; split; lra.
Qed.

Ltac q2z := rewrite Zlt_Qlt, ?inject_Z_plus;
  repeat match goal with
  | |- context [inject_Z (Zpos ?p)] => change (inject_Z (Zpos p)) with (Zpos p # 1)
  | |- context [inject_Z (Zneg ?p)] => change (inject_Z (Zneg p)) with (Zneg p # 1)
  end; lra.

Lemma round_half_even_unique (x : Q) (z : Z) :
  Qabs (x - inject_Z z) < 1#2 -> round_half_even x = z.
Proof.
  intros H. apply Qabs_Qlt_condition in H. destruct H as [H1 H2].
  pose proof (Qfloor_le x) as Hlo.
  pose proof (Qlt_floor x) as Hhi.
  rewrite inject_Z_plus in Hhi.
  change (inject_Z 1) with 1 in Hhi.
  unfold round_half_even.
  destruct (Qcompare_spec (x - inject_Z (Qfloor x)) (1#2)) as [He|Hl|Hg].
  - (* an exact half is not within a half of any integer *)
    exfalso.
    assert (z < Qfloor x + 1)%Z by q2z.
    assert (Qfloor x < z)%Z by q2z.
    lia.
  - assert (z < Qfloor x + 1)%Z by q2z.
    assert (Qfloor x + -1 < z)%Z by q2z.
    lia.
  - assert (z < Qfloor x + 2)%Z by q2z.
    assert (Qfloor x < z)%Z by q2z.
    lia.
Qed.

Lemma two_pow_pos (k : Z) : 0 < 2 ^ k.
Proof. apply Qpower_0_lt. reflexivity. Qed.

Lemma ilog2_le (x : Q) : 0 < x -> 2 ^ ilog2 x <= x.
Proof.
  intros Hx. unfold ilog2.
  destruct (Qle_bool _ x) eqn:Hb; [ by apply Qle_bool_iff | clear Hb ].
  destruct x as [n d]. cbn [Qnum Qden].
  assert (Hn : (0 < n)%Z) by (unfold Qlt in Hx; simpl in Hx; lia).
  pose proof (Z.log2_spec n Hn) as [Hn1 _].
  pose proof (Z.log2_spec (Zpos d) (Pos2Z.is_pos d)) as [_ Hd2].
  pose proof (Z.log2_nonneg n) as Hln.
  pose proof (Z.log2_nonneg (Zpos d)) as Hld.
  replace (Z.log2 n - Z.log2 (Z.pos d) - 1)%Z
    with (Z.log2 n - Z.succ (Z.log2 (Z.pos d)))%Z by lia.
  rewrite Qpower_minus by discriminate.
  change 2 with (inject_Z 2).
  rewrite <- !Zpower_Qpower by lia.
  rewrite (Qmake_Qdiv n d).
  set (A := (2 ^ Z.log2 n)%Z) in *.
  set (B := (2 ^ Z.succ (Z.log2 (Z.pos d)))%Z) in *.
  assert (HA : (0 < A)%Z) by (apply Z.pow_pos_nonneg; lia).
  assert (0 < inject_Z A) by (change 0 with (inject_Z 0); by rewrite <- Zlt_Qlt).
  assert (0 < inject_Z B) by (change 0 with (inject_Z 0); rewrite <- Zlt_Qlt; lia).
  assert (0 < inject_Z (Zpos d)) by reflexivity.
  assert (inject_Z A <= inject_Z n) by (by rewrite <- Zle_Qle).
  assert (inject_Z (Zpos d) <= inject_Z B) by (rewrite <- Zle_Qle; lia).
  apply Qle_shift_div_l; [ done | ].
  setoid_replace (inject_Z A / inject_Z B * inject_Z (Z.pos d))
    with (inject_Z A * inject_Z (Z.pos d) / inject_Z B)
    using relation Qeq by (field; lra).
  apply Qle_shift_div_r; [ done | ]. nra.
Qed.

(** [ilog2] is the floor of the binary logarithm, so that [RN] keeps exactly
    [prec] significant bits. *)
Lemma ilog2_gt (x : Q) : 0 < x -> x < 2 ^ (ilog2 x + 1).
Proof.
  intros Hx. unfold ilog2.
  destruct (Qle_bool _ x) eqn:Hb.
  - clear Hb. destruct x as [n d]. cbn [Qnum Qden].
    assert (Hn : (0 < n)%Z) by (unfold Qlt in Hx; simpl in Hx; lia).
    pose proof (Z.log2_spec n Hn) as [_ Hn2].
    pose proof (Z.log2_spec (Zpos d) (Pos2Z.is_pos d)) as [Hd1 _].
    pose proof (Z.log2_nonneg n) as Hln.
    pose proof (Z.log2_nonneg (Zpos d)) as Hld.
    replace (Z.log2 n - Z.log2 (Z.pos d) + 1)%Z
      with (Z.succ (Z.log2 n) - Z.log2 (Z.pos d))%Z by lia.
    rewrite Qpower_minus by discriminate.
    change 2 with (inject_Z 2).
    rewrite <- !Zpower_Qpower by lia.
    rewrite (Qmake_Qdiv n d).
    set (A := (2 ^ Z.succ (Z.log2 n))%Z) in *.
    set (B := (2 ^ Z.log2 (Z.pos d))%Z) in *.
    assert (HB : (0 < B)%Z) by (apply Z.pow_pos_nonneg; lia).
    assert (0 < inject_Z B) by (change 0 with (inject_Z 0); by rewrite <- Zlt_Qlt).
    assert (0 < inject_Z n) by (change 0 with (inject_Z 0); by rewrite <- Zlt_Qlt).
    assert (0 < inject_Z (Zpos d)) by reflexivity.
    assert (inject_Z n < inject_Z A) by (by rewrite <- Zlt_Qlt).
    assert (inject_Z B <= inject_Z (Zpos d)) by (by rewrite <- Zle_Qle).
    apply Qlt_shift_div_l; [ done | ].
    setoid_replace (inject_Z n / inject_Z (Z.pos d) * inject_Z B)
      with (inject_Z n * inject_Z B / inject_Z (Z.pos d))
      using relation Qeq by (field; lra).
    apply Qlt_shift_div_r; [ done | ]. nra.
  - replace (Z.log2 (Qnum x) - Z.log2 (Z.pos (Qden x)) - 1 + 1)%Z
      with (Z.log2 (Qnum x) - Z.log2 (Z.pos (Qden x)))%Z by lia.
    apply Qnot_le_lt. intros Hle. apply Qle_bool_iff in Hle. congruence.
Qed.

Lemma ilog2_lt (x : Q) (k : Z) : 0 < x -> x < 2 ^ k -> (ilog2 x < k)%Z.
Proof.
  intros Hx Hk. apply (Qpower_lt_compat_l_inv 2); [ | reflexivity ].
  eapply Qle_lt_trans; [ by apply ilog2_le | done ].
Qed.

(** Rounding a number below [2^k] in magnitude moves it by at most half a
    unit in the last place, [2^(k - 1 - prec)]. *)
Lemma RN_error (x : Q) (k : Z) :
  Qabs x < 2 ^ k -> Qabs (RN x - x) <= 2 ^ (k - 1 - prec).
Proof.
  intros Hk. unfold RN.
  destruct (Qnum x) eqn:Hnum;
    [ assert (Hx0 : x == 0) by (unfold Qeq; rewrite Hnum; reflexivity);
      rewrite Hx0; apply Qlt_le_weak, two_pow_pos | .. ].
  all: assert (Hx : 0 < Qabs x)
         by (apply Qabs_case; intros; unfold Qlt, Qle in *; simpl in *; lia).
  all: set (e := (ilog2 (Qabs x) - (prec - 1))%Z).
  all: pose proof (ilog2_lt _ _ Hx Hk) as Hl.
  all: pose proof (round_half_even_bounds (x / 2 ^ e)) as [Hm1 Hm2].
  all: set (m := inject_Z (round_half_even (x / 2 ^ e))) in *.
  all: rewrite Qred_correct.
  all: pose proof (two_pow_pos e) as HP.
  all: assert (Hy : x / 2 ^ e * 2 ^ e == x) by (field; lra).
  all: assert (He : (1#2) * 2 ^ e <= 2 ^ (k - 1 - prec))
         by (setoid_replace ((1#2) * 2 ^ e) with (2 ^ (e - 1))
               using relation Qeq;
             [ apply Qpower_le_compat_l; [ unfold e; lia | discriminate ]
             | rewrite Qpower_minus by discriminate;
               change (2 ^ 1) with 2; field ]).
  all: set (P := 2 ^ e) in *; set (y := x / P) in *.
  all: apply Qabs_Qle_condition; split; nra.
Qed.

Lemma of_cents_error (c : Z) :
  (Z.abs c < 2 ^ 50)%Z ->
  Qabs (of_cents c - inject_Z c * (1 # 100)) <= 1 # 1024.
Proof.
  intros Hc. unfold of_cents.
  change (inject_Z c * (1 # 100)) with (inject_Z c / inject_Z 100).
  rewrite <- (Qmake_Qdiv c 100).
  apply (RN_error (c # 100) 44).
  change (Qabs (c # 100)) with (Z.abs c # 100).
  unfold Qlt. simpl. lia.
Qed.

Lemma fsum_two_exact (x y : Z) :
  (Z.abs x + Z.abs y < 2 ^ 50)%Z ->
  quantize_2f (fsum [of_cents x; of_cents y]) = (x + y)%Z.
Proof.
  intros Hxy.
  pose proof (of_cents_error x ltac:(lia)) as Ha.
  pose proof (of_cents_error y ltac:(lia)) as Hb.
  apply Qabs_Qle_condition in Ha, Hb.
  set (a := of_cents x) in *. set (b := of_cents y) in *.
  assert (HX : - inject_Z (2 ^ 50) < inject_Z x + inject_Z y
               /\ inject_Z x + inject_Z y < inject_Z (2 ^ 50)).
  { rewrite <- inject_Z_plus, <- inject_Z_opp, <- !Zlt_Qlt. lia. }
  change (inject_Z (2 ^ 50)) with (1125899906842624 # 1) in HX.
  unfold fsum, quantize_2f. cbn [foldr].
  assert (Hs : Qabs (RN (a + (b + 0)) - (a + (b + 0))) <= 1 # 1024).
  { apply (RN_error _ 44). apply Qabs_Qlt_condition.
    change (2 ^ 44) with (17592186044416 # 1). split; lra. }
  apply Qabs_Qle_condition in Hs.
  apply round_half_even_unique, Qabs_Qlt_condition.
  rewrite inject_Z_plus. split; lra.
Qed.

End FloatFacts.

(** ** Saving an order *)

Section OrdersFacts.

Variable gen : World → Order → string.

Lemma deactivate_noop (i : Order) (w : World) :
  rows (siblings i) w = ∅ → deactivate i <$> orders w = orders w.
Proof.
  intros He. apply map_eq. intros k. rewrite lookup_fmap.
  destruct (orders w !! k) as [r|] eqn:Hk; [ | done ]. simpl. f_equal.
  unfold deactivate. destruct (siblings i r) eqn:Hs; [ | done ].
  exfalso. assert (Hin : rows (siblings i) w !! k = Some r).
  { unfold rows. apply map_lookup_filter_Some. done. }
  rewrite He in Hin. by rewrite lookup_empty in Hin.
Qed.



Lemma pre_save_eq (i : Order) (w : World) :
  order_id_pre_save_receiver gen i w = Some (pre_instance gen i w, pre_world i w).
Proof.
  unfold order_id_pre_save_receiver, pre_instance, pre_world, bind, exists_,
    update_active, ret.
  destruct (bool_decide (order_id i = "")); cbn.
  - case_bool_decide as He; cbn; [ done | ].
    f_equal. f_equal.
    change (siblings (set_order_id (gen w i) i)) with (siblings i) in He.
    rewrite (deactivate_noop i w He). by destruct w.
  - case_bool_decide as He; cbn; [ done | ].
    rewrite (deactivate_noop i w He). by destruct w.
Qed.

Lemma deactivate_idemp (i : Order) (r : OrderRow) :
  deactivate i (deactivate i r) = deactivate i r.
Proof.
  unfold deactivate. destruct (siblings i r) eqn:Hs; rewrite ?Hs; [ | done ].
  change (siblings i (set_row_active false r)) with (siblings i r).
  by rewrite Hs.
Qed.

Lemma deactivate_own (i : Order) : deactivate i (to_row i) = to_row i.
Proof.
  unfold deactivate, siblings. cbn.
  rewrite (bool_decide_eq_true_2 (billing_profile i = billing_profile i)) by done.
  by rewrite andb_false_r.
Qed.


Lemma save_unfold (fuel : nat) (self : Order) (w : World) :
  save gen (S fuel) self w =
  match save_once gen self w with
  | Some ((self', created), w') =>
      if created : bool then
        match save gen fuel (set_total (new_total self') self') w' with
        | Some (self'', w'') => Some (self'', w'')
        | None => None
        end
      else Some (self', w')
  | None => None
  end.
Proof.
  cbn [save]. unfold save_once, bind.
  destruct (order_id_pre_save_receiver gen self w) as [[i1 w1]|]; [ | done ].
  destruct (save_table i1 w1) as [[[i2 c] w2]|]; [ | done ]. cbn.
  destruct c; cbn; [ | done ].
  unfold Order_update_total, bind, ret.
  by destruct (save gen fuel _ w2) as [[? ?]|].
Qed.

Lemma pre_instance_pk i w : pk (pre_instance gen i w) = pk i.
Proof. unfold pre_instance. by case_bool_decide. Qed.

Lemma pre_instance_same i w : same_fields i (pre_instance gen i w).
Proof. unfold pre_instance, same_fields. by case_bool_decide. Qed.

Lemma pre_instance_total i w : total (pre_instance gen i w) = total i.
Proof. unfold pre_instance. by case_bool_decide. Qed.

Lemma save_once_update (self : Order) (w : World) (k : nat) :
  pk self = Some k →
  save_once gen self w =
  Some ((pre_instance gen self w, bool_decide (orders w !! k = None)),
        set_orders
          (<[k := to_row (pre_instance gen self w)]> (deactivate self <$> orders w))
          (pre_world self w)).
Proof.
  intros Hk. unfold save_once, bind. rewrite pre_save_eq.
  unfold save_table. rewrite pre_instance_pk, Hk. cbn.
  rewrite lookup_fmap. do 3 f_equal.
  destruct (orders w !! k); cbn; by repeat case_bool_decide.
Qed.

Lemma save_once_insert (self : Order) (w : World) :
  pk self = None →
  save_once gen self w =
  Some ((set_pk (fresh (dom (orders w))) (pre_instance gen self w), true),
        set_orders
          (<[fresh (dom (orders w)) := to_row (pre_instance gen self w)]>
             (deactivate self <$> orders w))
          (pre_world self w)).
Proof.
  intros Hk. unfold save_once, bind. rewrite pre_save_eq.
  unfold save_table. rewrite pre_instance_pk, Hk. cbn.
  by rewrite dom_fmap_L.
Qed.

Lemma save_existing (n : nat) (self : Order) (w : World) (k : nat) :
  pk self = Some k → is_Some (orders w !! k) →
  save gen (S n) self w =
  Some (pre_instance gen self w,
        set_orders
          (<[k := to_row (pre_instance gen self w)]> (deactivate self <$> orders w))
          (pre_world self w)).
Proof.
  intros Hk [r Hr]. rewrite save_unfold, (save_once_update self w k Hk).
  by rewrite bool_decide_eq_false_2 by (rewrite Hr; done).
Qed.

Lemma deactivate_collapse (i j : Order) (k : nat) (x y : OrderRow)
    (m : gmap nat OrderRow) :
  (∀ r, deactivate j r = deactivate i r) →
  <[k := x]> (deactivate j <$> <[k := y]> (deactivate i <$> m))
  = <[k := x]> (deactivate i <$> m).
Proof.
  intros Hij. apply map_eq. intros k'.
  destruct (decide (k = k')) as [->|Hne].
  - by rewrite !lookup_insert_eq.
  - rewrite !lookup_insert_ne, !lookup_fmap, lookup_insert_ne, lookup_fmap by done.
    destruct (m !! k'); cbn; [ | done ].
    by rewrite Hij, deactivate_idemp.
Qed.

Lemma pre_instance_order_id i w :
  order_id i ≠ "" → order_id (pre_instance gen i w) = order_id i.
Proof. intros H. unfold pre_instance. by rewrite bool_decide_eq_false_2. Qed.

Lemma pre_instance_order_id_new i w :
  order_id i = "" → order_id (pre_instance gen i w) = gen w i.
Proof. intros H. unfold pre_instance. by rewrite bool_decide_eq_true_2. Qed.

Lemma pre_world_carts i w : carts (pre_world i w) = carts w.
Proof. unfold pre_world. by case_bool_decide. Qed.

Lemma same_fields_trans a b c :
  same_fields a b → same_fields b c → same_fields a c.
Proof.
  unfold same_fields. intros (?&?&?&?&?&?&?) (?&?&?&?&?&?&?).
  repeat split; congruence.
Qed.

Lemma same_fields_keyed a t k : same_fields a (set_total t (set_pk k a)).
Proof. by unfold same_fields. Qed.

(** The instance handed to the nested [save] of a first save. *)
Lemma save_insert_step (self : Order) (w : World) (k : nat) :
  let i1 := pre_instance gen self w in
  let i2 := set_total (new_total self) (set_pk k i1) in
  let w2 := set_orders (<[k := to_row i1]> (deactivate self <$> orders w))
              (pre_world self w) in
  (∀ k0, pk self = Some k0 → k0 = k) →
  (is_insert self w = true) →
  (pk self = None → orders w !! k = None) →
  saved gen self w (pre_instance gen i2 w2)
    (set_orders (<[k := to_row (pre_instance gen i2 w2)]>
                   (deactivate i2 <$> orders w2)) (pre_world i2 w2)) k.
Proof.
  intros i1 i2 w2 Hold Hins Hnew.
  pose proof (pre_instance_same self w) as (?&?&?&?&?&?&?).
  pose proof (pre_instance_same i2 w2) as (?&?&?&?&?&?&?).
  assert (Hd : ∀ r, deactivate i2 r = deactivate self r).
  { intros r. unfold deactivate, siblings.
    replace (cart i2) with (cart self) by done.
    by replace (billing_profile i2) with (billing_profile self) by done. }
  split.
  - by rewrite pre_instance_pk.
  - done.
  - done.
  - cbn [orders set_orders]. unfold w2 at 1. cbn [orders set_orders].
    by apply deactivate_collapse.
  - cbn [carts set_orders]. rewrite pre_world_carts. unfold w2.
    cbn [carts set_orders]. apply pre_world_carts.
  - eapply same_fields_trans; [ apply (pre_instance_same self w) | ].
    eapply same_fields_trans; [ apply same_fields_keyed | ].
    apply pre_instance_same.
  - intros Hne. destruct (decide (order_id i2 = "")) as [He|He].
    + exfalso. cbn in He. fold i1 in He. unfold i1 in He.
      rewrite pre_instance_order_id in He; done.
    + rewrite pre_instance_order_id by done. cbn.
      by apply pre_instance_order_id.
  - intros He. destruct (decide (order_id i2 = "")) as [He2|He2].
    + eexists _, _. by apply pre_instance_order_id_new.
    + rewrite pre_instance_order_id by done. cbn.
      eexists _, _. by apply pre_instance_order_id_new.
  - rewrite Hins, pre_instance_total. done.
Qed.

Lemma new_total_pre_instance i w : new_total (pre_instance gen i w) = new_total i.
Proof. unfold pre_instance. by case_bool_decide. Qed.

Lemma set_pk_id i k : pk i = Some k → set_pk k i = i.
Proof. destruct i; cbn; by intros ->. Qed.

(** [save] returns as soon as two nested calls are allowed, and then it has
    written the instance. *)
Lemma save_spec (n : nat) (self : Order) (w : World) :
  ∃ self' w' k,
    save gen (S (S n)) self w = Some (self', w') ∧ saved gen self w self' w' k.
Proof.
  destruct (pk self) as [k|] eqn:Hpk.
  - destruct (orders w !! k) as [r|] eqn:Hr.
    + eexists _, _, k. split.
      { by apply (save_existing _ _ _ k). }
      split.
      * by rewrite pre_instance_pk.
      * intros k0. congruence.
      * congruence.
      * done.
      * cbn [carts set_orders]. apply pre_world_carts.
      * apply pre_instance_same.
      * apply pre_instance_order_id.
      * intros He. eexists _, _. by apply pre_instance_order_id_new.
      * unfold is_insert. rewrite Hpk, Hr, pre_instance_total.
        by rewrite bool_decide_eq_false_2.
    + eexists _, _, k. split.
      { rewrite save_unfold, (save_once_update self w k Hpk), Hr.
        rewrite bool_decide_eq_true_2 by done.
        rewrite (save_existing _ _ _ k).
        - rewrite new_total_pre_instance.
          rewrite <- (set_pk_id (pre_instance gen self w) k)
            by (by rewrite pre_instance_pk).
          reflexivity.
        - cbn. by rewrite pre_instance_pk.
        - cbn [orders set_orders]. rewrite lookup_insert_eq. by eexists. }
      apply save_insert_step.
      * intros k0. congruence.
      * unfold is_insert. rewrite Hpk, Hr. by rewrite bool_decide_eq_true_2.
      * congruence.
  - assert (Hfresh : orders w !! fresh (dom (orders w)) = None).
    { apply not_elem_of_dom, is_fresh. }
    eexists _, _, (fresh (dom (orders w))). split.
    { rewrite save_unfold, (save_once_insert self w Hpk).
      rewrite (save_existing _ _ _ (fresh (dom (orders w)))).
      - cbn [new_total set_pk cart shipping_total].
        change (new_total (set_pk ?k ?i)) with (new_total i).
        rewrite new_total_pre_instance. reflexivity.
      - done.
      - cbn [orders set_orders]. rewrite lookup_insert_eq. by eexists. }
    apply save_insert_step.
    + intros k0. congruence.
    + unfold is_insert. by rewrite Hpk.
    + done.
Qed.


(** *** Consequences of a completed save *)

Lemma saved_persisted self w self' w' k :
  saved gen self w self' w' k → persisted self' w'.
Proof.
  intros H. exists k. split; [ apply H | ].
  rewrite (saved_orders _ _ _ _ _ _ H). apply lookup_insert_eq.
Qed.

Lemma saved_other_rows self w self' w' k j :
  saved gen self w self' w' k → j ≠ k →
  orders w' !! j = deactivate self <$> orders w !! j.
Proof.
  intros H Hj. rewrite (saved_orders _ _ _ _ _ _ H).
  rewrite lookup_insert_ne by done. apply lookup_fmap.
Qed.

Lemma deactivate_order_id i r : row_order_id (deactivate i r) = row_order_id r.
Proof. unfold deactivate. by destruct (siblings i r). Qed.

Lemma deactivate_cart i r : row_cart (deactivate i r) = row_cart r.
Proof. unfold deactivate. by destruct (siblings i r). Qed.

Lemma deactivate_billing_profile i r :
  row_billing_profile (deactivate i r) = row_billing_profile r.
Proof. unfold deactivate. by destruct (siblings i r). Qed.

Lemma deactivate_sibling i r :
  row_cart r = cart_id (cart i) →
  row_billing_profile r ≠ billing_profile i →
  row_active (deactivate i r) = false.
Proof.
  intros Hc Hb. unfold deactivate, siblings.
  rewrite bool_decide_eq_true_2, bool_decide_eq_false_2 by done. done.
Qed.

Lemma deactivate_foreign i r :
  row_cart r ≠ cart_id (cart i) → deactivate i r = r.
Proof.
  intros Hc. unfold deactivate, siblings.
  by rewrite bool_decide_eq_false_2 by done.
Qed.

Lemma deactivate_same_profile i r :
  row_billing_profile r = billing_profile i → deactivate i r = r.
Proof.
  intros Hb. unfold deactivate, siblings.
  rewrite (bool_decide_eq_true_2 _ Hb). by rewrite andb_false_r.
Qed.

Lemma saved_siblings_inactive self w self' w' k :
  saved gen self w self' w' k → siblings_inactive self' w'.
Proof.
  intros H j r Hj Hpk Hc Hb.
  assert (Hjk : j ≠ k).
  { intros ->. apply Hpk, H. }
  rewrite (saved_other_rows _ _ _ _ _ _ H Hjk) in Hj.
  destruct (orders w !! j) as [r0|]; [ | done ].
  cbn in Hj. injection Hj as <-.
  destruct (saved_fields _ _ _ _ _ _ H) as (Hbp & _ & _ & Hcart & _).
  rewrite deactivate_cart in Hc. rewrite deactivate_billing_profile in Hb.
  apply deactivate_sibling; congruence.
Qed.

Lemma saved_keeps_order_ids self w self' w' k :
  saved gen self w self' w' k → coherent self w → keeps_order_ids w w'.
Proof.
  intros H Hco j r Hj Hid.
  destruct (decide (j = k)) as [->|Hjk].
  - exists (to_row self'). split.
    + rewrite (saved_orders _ _ _ _ _ _ H). apply lookup_insert_eq.
    + cbn. destruct (pk self) as [k0|] eqn:Hpk.
      * pose proof (saved_pk_old _ _ _ _ _ _ H k0 Hpk) as ->.
        pose proof (Hco k r Hpk Hj Hid) as Hs.
        rewrite (saved_order_id _ _ _ _ _ _ H); congruence.
      * rewrite (saved_pk_new _ _ _ _ _ _ H Hpk) in Hj. done.
  - exists (deactivate self r). split.
    + rewrite (saved_other_rows _ _ _ _ _ _ H Hjk), Hj. done.
    + apply deactivate_order_id.
Qed.

(** *** Query sets that hold one row *)

Lemma rows_size_1 (qs : QuerySet) (w : World) :
  size (rows qs w) = 1%nat →
  ∃ k r, map_to_list (rows qs w) = [(k, r)] ∧
         orders w !! k = Some r ∧ qs r = true ∧
         (∀ j r', orders w !! j = Some r' → qs r' = true → j = k).
Proof.
  intros Hsz. rewrite <- length_map_to_list in Hsz.
  destruct (map_to_list (rows qs w)) as [|[k r] [|? ?]] eqn:Hl; try done.
  assert (Hin : ∀ j r', rows qs w !! j = Some r' → j = k ∧ r' = r).
  { intros j r' Hj. apply elem_of_map_to_list in Hj. rewrite Hl in Hj.
    apply list_elem_of_singleton in Hj. by injection Hj. }
  assert (Hk : rows qs w !! k = Some r).
  { apply elem_of_map_to_list. rewrite Hl. by apply list_elem_of_singleton. }
  apply map_lookup_filter_Some in Hk as [Hk Hq].
  exists k, r. repeat split; try done.
  intros j r' Hj Hq'. apply (Hin j r').
  by apply map_lookup_filter_Some.
Qed.

Lemma first_one (qs : QuerySet) (w : World) k r c :
  map_to_list (rows qs w) = [(k, r)] → carts w !! row_cart r = Some c →
  first qs w = Some (from_row k r c, w).
Proof. intros Hl Hc. unfold first. by rewrite Hl, Hc. Qed.

(** *** [update_total] *)

Lemma update_total_spec (n : nat) (self : Order) (w : World) :
  ∃ self' w' k,
    update_total gen (S (S n)) self w = Some ((total self', self'), w') ∧
    saved gen (set_total (new_total self) self) w self' w' k ∧
    total self' = new_total self.
Proof.
  destruct (save_spec n (set_total (new_total self) self) w)
    as (self' & w' & k & Hs & H).
  exists self', w', k. split; [ | split; [ done | ] ].
  - unfold update_total, Order_update_total, bind, ret. by rewrite Hs.
  - rewrite (saved_total _ _ _ _ _ _ H). by destruct (is_insert _ w).
Qed.

End OrdersFacts.

(** * The claims *)

Section Claims.

Variable gen : World → Order → string.

(** C1 (as amended).  For every order whose amounts satisfy
    |cart.total| + |shipping_total| < 2^50 hundredths, [update_total] sets
    and returns total = cart.total + shipping_total and persists the order.
    The sum is formed in binary floating point ([math.fsum]) and printed
    with two decimals; in this range the three roundings involved cannot
    move the result by half a hundredth. *)
Theorem update_total_exact (n : nat) (self : Order) (w : World) :
  Z.abs (cart_total (cart self)) + Z.abs (shipping_total self) < 2 ^ 50 →
  ∃ self' w',
    update_total gen (S (S n)) self w
      = Some ((cart_total (cart self) + shipping_total self, self'), w') ∧
    total self' = cart_total (cart self) + shipping_total self ∧
    persisted self' w'.
Proof.
  intros Hb.
  destruct (update_total_spec gen n self w) as (self' & w' & k & Hu & Hs & Ht).
  unfold new_total in Ht. rewrite fsum_two_exact in Ht by done.
  exists self', w'. rewrite <- Ht. eauto using saved_persisted.
Qed.

(** *** [check_done] and [mark_paid] *)

(** The conditions of [check_done] other than the total. *)
Lemma check_done_false (self : Order) :
  billing_profile self = None ∨ billing_address self = None ∨
  (is_digital (cart self) = false ∧ shipping_address self = None) →
  check_done self = Some false.
Proof.
  unfold check_done.
  destruct (billing_profile self), (billing_address self),
    (shipping_address self), (is_digital (cart self)); cbn;
    intuition (discriminate || congruence).
Qed.

(** With a number in [self.total], [check_done] answers, and answers
    [True] exactly under the four conditions. *)
Lemma check_done_number (self : Order) :
  total_is_str self = false →
  ∃ b, check_done self = Some b ∧
       (b = true ↔
          billing_profile self ≠ None ∧ 0 < total self ∧
          billing_address self ≠ None ∧
          (is_digital (cart self) = true ∨ shipping_address self ≠ None)).
Proof.
  intros Hn. unfold check_done. rewrite Hn.
  destruct (billing_profile self), (billing_address self),
    (shipping_address self), (is_digital (cart self)),
    (Z.ltb_spec 0 (total self)); cbn; eexists; (split; [ reflexivity | ]);
    intuition (discriminate || congruence || lia).
Qed.

(** With a string in [self.total], [check_done] raises exactly when the
    comparison is reached. *)
Lemma check_done_str (self : Order) :
  total_is_str self = true →
  (check_done self = None ↔
     billing_profile self ≠ None ∧ billing_address self ≠ None ∧
     (is_digital (cart self) = true ∨ shipping_address self ≠ None))
  ∧ (check_done self ≠ None → check_done self = Some false).
Proof.
  intros Hn. unfold check_done. rewrite Hn.
  destruct (billing_profile self), (billing_address self),
    (shipping_address self), (is_digital (cart self)); cbn;
    intuition (discriminate || congruence).
Qed.

Lemma check_done_raises_str (self : Order) :
  check_done self = None → total_is_str self = true.
Proof.
  intros Hc. destruct (total_is_str self) eqn:Hn; [ done | ].
  destruct (check_done_number self Hn) as (b & Hb & _). congruence.
Qed.

(** What [update_total], and with it every save that inserts, leaves in
    [self.total] is a string. *)
Lemma save_total_is_str (n : nat) (self : Order) (w : World) :
  ∃ self' w',
    save gen (S (S n)) self w = Some (self', w') ∧
    total_is_str self'
    = if is_insert self w then true else total_is_str self.
Proof.
  assert (Hpre : ∀ i w0, total_is_str (pre_instance gen i w0) = total_is_str i)
    by (intros i w0; unfold pre_instance; by case_bool_decide).
  unfold is_insert. destruct (pk self) as [k|] eqn:Hpk.
  - destruct (orders w !! k) as [r|] eqn:Hr.
    + rewrite (save_existing gen _ self w k Hpk) by (by rewrite Hr).
      eexists _, _. split; [ done | ].
      rewrite bool_decide_eq_false_2 by done. apply Hpre.
    + rewrite save_unfold, (save_once_update gen self w k Hpk), Hr.
      rewrite bool_decide_eq_true_2 by done.
      rewrite (save_existing gen _ _ _ k).
      * eexists _, _. split; [ done | ]. by rewrite Hpre.
      * cbn. by rewrite pre_instance_pk.
      * cbn [orders set_orders]. rewrite lookup_insert_eq. by eexists.
  - rewrite save_unfold, (save_once_insert gen self w Hpk).
    rewrite (save_existing gen _ _ _ (fresh (dom (orders w)))).
    + eexists _, _. split; [ done | ]. by rewrite Hpre.
    + done.
    + cbn [orders set_orders]. rewrite lookup_insert_eq. by eexists.
Qed.

Lemma update_total_is_str (n : nat) (self : Order) (w : World) :
  ∃ t self' w',
    update_total gen (S (S n)) self w = Some ((t, self'), w') ∧
    total_is_str self' = true.
Proof.
  destruct (save_total_is_str n (set_total (new_total self) self) w)
    as (self' & w' & Hs & Hstr).
  exists (total self'), self', w'. split.
  - unfold update_total, Order_update_total, bind, ret. by rewrite Hs.
  - rewrite Hstr. by destruct (is_insert _ w).
Qed.

Lemma create_total_is_str (n : nat) bp c w :
  ∃ self' w',
    create gen (S (S n)) bp c w = Some (self', w') ∧
    total_is_str self' = true ∧ total self' = new_total (new_order bp c) ∧
    same_fields (new_order bp c) self'.
Proof.
  destruct (save_total_is_str n (new_order bp c) w) as (self' & w' & Hs & Hstr).
  destruct (save_spec gen n (new_order bp c) w) as (self2 & w2 & k & Hs2 & H).
  assert (self2 = self') as -> by congruence.
  exists self', w'. split; [ done | ]. split; [ done | ].
  split; [ | apply H ]. by rewrite (saved_total _ _ _ _ _ _ H).
Qed.

(** C2.  The claim holds for an order whose [total] is a number, and for
    every order without a billing address; it fails on the code for the
    orders [update_total] and [create] hand back.  These carry the '.2f'
    string in [self.total], and once billing profile, billing address and
    shipping requirement are met, [self.total > 0] raises [TypeError]
    instead of answering: so for the new order on a digital cart of 100.00
    (total '150.00') whose billing address has been set. *)
Theorem check_done_raises_on_str_total :
  (∀ self,
     total_is_str self = true →
     billing_profile self ≠ None → billing_address self ≠ None →
     is_digital (cart self) = true ∨ shipping_address self ≠ None →
     check_done self = None)
  ∧ (∀ n self w,
       ∃ t self' w',
         update_total gen (S (S n)) self w = Some ((t, self'), w') ∧
         total_is_str self' = true)
  ∧ (∀ n b a c w,
       is_digital c = true → cart_total c = 10000 →
       ∃ o w',
         create gen (S (S n)) (Some b) c w = Some (o, w') ∧
         billing_profile (set_billing_address (Some a) o) ≠ None ∧
         0 < total (set_billing_address (Some a) o) ∧
         billing_address (set_billing_address (Some a) o) ≠ None ∧
         is_digital (cart (set_billing_address (Some a) o)) = true ∧
         check_done (set_billing_address (Some a) o) = None)
  ∧ (∀ self,
       total_is_str self = false →
       (check_done self = Some true ↔
          billing_profile self ≠ None ∧ 0 < total self ∧
          billing_address self ≠ None ∧
          (is_digital (cart self) = true ∨ shipping_address self ≠ None))
       ∧ (check_done self = Some true ∨ check_done self = Some false))
  ∧ (∀ self, billing_address self = None → check_done self = Some false).
Proof.
  split; [ | split; [ | split; [ | split ] ] ].
  - intros self Hstr Hb Ha Hs. by apply (check_done_str self Hstr).
  - intros n self w. apply update_total_is_str.
  - intros n b a c w Hd Hc.
    destruct (create_total_is_str n (Some b) c w)
      as (o & w' & Hcr & Hstr & Ht & Hf).
    destruct Hf as (Hbp & _ & _ & Hcart & _). cbn in Hbp, Hcart.
    assert (Ht' : total o = 15000).
    { rewrite Ht. unfold new_total. cbn. by rewrite Hc. }
    exists o, w'. split; [ done | ]. cbn.
    rewrite Hbp, Ht', Hcart, Hd. repeat split; try done.
    apply check_done_str; cbn; rewrite ?Hbp, ?Hcart, ?Hd; auto.
  - intros self Hn. destruct (check_done_number self Hn) as (b & Hb & Hiff).
    rewrite Hb. split.
    + rewrite <- Hiff. split; [ by intros [= ->] | by intros -> ].
    + destruct b; auto.
  - intros self Ha. apply check_done_false. auto.
Qed.

Lemma mark_paid_noop (fuel : nat) (self : Order) (w : World) :
  status self = "paid" ∨ check_done self = Some false →
  mark_paid gen fuel self w = Some ((status self, self), w).
Proof.
  intros H. unfold mark_paid. case_bool_decide; cbn [negb]; [ done | ].
  destruct H as [H|H]; [ done | ]. by rewrite H.
Qed.

Lemma mark_paid_transition (n : nat) (self : Order) (w : World) :
  status self ≠ "paid" → check_done self = Some true →
  ∃ self' w' k,
    mark_paid gen (S (S n)) self w = Some (("paid", self'), w') ∧
    status self' = "paid" ∧
    saved gen (set_status "paid" self) w self' w' k.
Proof.
  intros Hs Hc.
  destruct (save_spec gen n (set_status "paid" self) w)
    as (self' & w' & k & Hsave & H).
  assert (Hst : status self' = "paid")
    by (destruct (saved_fields _ _ _ _ _ _ H) as (_&_&_&_&?&_); done).
  exists self', w', k. split; [ | by split ].
  unfold mark_paid. rewrite bool_decide_eq_false_2 by done. cbn [negb].
  rewrite Hc. unfold bind, ret. by rewrite Hsave, Hst.
Qed.

(** [mark_paid] raises exactly when it reaches a [check_done] that
    raises. *)
Lemma mark_paid_raises (n : nat) (self : Order) (w : World) :
  mark_paid gen (S (S n)) self w = None ↔
  status self ≠ "paid" ∧ check_done self = None.
Proof.
  destruct (decide (status self = "paid")) as [Hp|Hp].
  - rewrite mark_paid_noop by auto. split; [ done | by intros [? _] ].
  - destruct (check_done self) as [[|]|] eqn:Hc.
    + destruct (mark_paid_transition n self w Hp Hc) as (? & ? & ? & -> & _).
      split; [ done | by intros [_ ?] ].
    + rewrite mark_paid_noop by auto. split; [ done | by intros [_ ?] ].
    + unfold mark_paid. rewrite bool_decide_eq_false_2 by done. cbn [negb].
      rewrite Hc. done.
Qed.

(** The three ways [mark_paid] returns. *)
Lemma mark_paid_returns (n : nat) (self : Order) (w : World) s self' w' :
  mark_paid gen (S (S n)) self w = Some ((s, self'), w') →
  (s = status self ∧ self' = self ∧ w' = w ∧
   (status self = "paid" ∨ check_done self = Some false))
  ∨ (s = "paid" ∧ status self ≠ "paid" ∧ check_done self = Some true ∧
     status self' = "paid" ∧
     ∃ k, saved gen (set_status "paid" self) w self' w' k).
Proof.
  intros Hm.
  destruct (decide (status self = "paid")) as [Hp|Hp].
  - rewrite mark_paid_noop in Hm by auto. injection Hm as <- <- <-.
    left. repeat split; auto.
  - destruct (check_done self) as [[|]|] eqn:Hc.
    + destruct (mark_paid_transition n self w Hp Hc)
        as (i & w0 & k & Hm' & Hst & H).
      rewrite Hm' in Hm. injection Hm as <- <- <-. right.
      repeat split; try done. by exists k.
    + rewrite mark_paid_noop in Hm by auto. injection Hm as <- <- <-.
      left. repeat split; auto.
    + assert (Hn : mark_paid gen (S (S n)) self w = None)
        by (by apply mark_paid_raises).
      congruence.
Qed.

(** C3.  For an order whose [total] is a number [mark_paid] is as claimed:
    nothing is done to a paid order; otherwise the order is set to 'paid'
    and persisted when [check_done] holds and left alone when it fails, and
    the resulting status is returned; so the order of the scenario (total
    the number 150.00) becomes paid on a digital cart and keeps its status
    otherwise.  On the code the claim fails for the orders [create] hands
    back: their [total] is the '.2f' string, and with billing profile and
    billing address set on a digital cart [mark_paid] raises the [TypeError]
    of [check_done] and returns nothing. *)
Theorem mark_paid_raises_on_str_total (n : nat) :
  (∀ self w,
     status self = "paid" →
     mark_paid gen (S (S n)) self w = Some (("paid", self), w))
  ∧ (∀ self w,
       status self ≠ "paid" → check_done self = Some true →
       ∃ self' w',
         mark_paid gen (S (S n)) self w = Some (("paid", self'), w') ∧
         status self' = "paid" ∧ persisted self' w')
  ∧ (∀ self w,
       status self ≠ "paid" → check_done self = Some false →
       mark_paid gen (S (S n)) self w = Some ((status self, self), w))
  ∧ (∀ self w,
       mark_paid gen (S (S n)) self w = None ↔
       status self ≠ "paid" ∧ check_done self = None)
  ∧ (∀ self w,
       total_is_str self = false →
       status self = "created" → billing_profile self ≠ None →
       billing_address self ≠ None → shipping_address self = None →
       total self = 15000 →
       (is_digital (cart self) = true →
        ∃ self' w',
          mark_paid gen (S (S n)) self w = Some (("paid", self'), w') ∧
          status self' = "paid" ∧ persisted self' w')
       ∧ (is_digital (cart self) = false →
          mark_paid gen (S (S n)) self w = Some (("created", self), w)))
  ∧ (∀ b a c w,
       is_digital c = true → cart_total c = 10000 →
       ∃ o w',
         create gen (S (S n)) (Some b) c w = Some (o, w') ∧
         status o = "created" ∧ total o = 15000 ∧ shipping_address o = None ∧
         mark_paid gen (S (S n)) (set_billing_address (Some a) o) w' = None).
Proof.
  assert (Hpay : ∀ self w, status self ≠ "paid" → check_done self = Some true →
     ∃ self' w',
       mark_paid gen (S (S n)) self w = Some (("paid", self'), w') ∧
       status self' = "paid" ∧ persisted self' w').
  { intros self w Hs Hc.
    destruct (mark_paid_transition n self w Hs Hc)
      as (self' & w' & k & ? & ? & ?).
    eauto 10 using saved_persisted. }
  split; [ | split; [ done | split; [ | split; [ | split ] ] ] ].
  - intros self w Hp. rewrite mark_paid_noop by auto. by rewrite Hp.
  - intros self w Hs Hc. by apply mark_paid_noop; right.
  - intros self w. apply mark_paid_raises.
  - intros self w Hn Hst Hbp Hba Hsa Ht.
    destruct (check_done_number self Hn) as (b & Hb & Hiff).
    split; intros Hd.
    + apply Hpay; [ by rewrite Hst | ].
      rewrite Hb. f_equal. apply Hiff. rewrite Ht. repeat split; auto; lia.
    + rewrite mark_paid_noop; [ by rewrite Hst | ].
      right. apply check_done_false. auto.
  - intros b a c w Hd Hc.
    destruct (create_total_is_str n (Some b) c w)
      as (o & w' & Hcr & Hstr & Ht & Hf).
    destruct Hf as (Hbp & Hsa & _ & Hcart & Hst & _).
    cbn in Hbp, Hsa, Hcart, Hst.
    exists o, w'. split; [ done | ]. split; [ done | ].
    split; [ rewrite Ht; unfold new_total; cbn; by rewrite Hc | ].
    split; [ done | ].
    apply mark_paid_raises. split; [ cbn; by rewrite Hst | ].
    apply check_done_str; cbn; rewrite ?Hbp, ?Hcart, ?Hd; auto.
Qed.

(** C4.  [mark_paid] is idempotent.  A paid order is returned as it is,
    whatever its total.  Whenever a call returns, a second call on what it
    returned gives the same status and changes neither the order nor the
    table.  A call that does not return has raised the [TypeError] of
    [check_done], before anything was assigned or saved; a call on an order
    whose total is a number always returns. *)
Theorem mark_paid_idempotent (n : nat) (self : Order) (w : World) :
  (status self = "paid" →
     mark_paid gen (S (S n)) self w = Some (("paid", self), w))
  ∧ (∀ s self' w',
       mark_paid gen (S (S n)) self w = Some ((s, self'), w') →
       mark_paid gen (S (S n)) self' w' = Some ((s, self'), w') ∧
       status self' = s)
  ∧ (mark_paid gen (S (S n)) self w = None ↔
     status self ≠ "paid" ∧ check_done self = None)
  ∧ (total_is_str self = false →
     ∃ s self' w',
       mark_paid gen (S (S n)) self w = Some ((s, self'), w') ∧
       mark_paid gen (S (S n)) self' w' = Some ((s, self'), w') ∧
       status self' = s).
Proof.
  assert (Hsecond : ∀ s self' w',
       mark_paid gen (S (S n)) self w = Some ((s, self'), w') →
       mark_paid gen (S (S n)) self' w' = Some ((s, self'), w') ∧
       status self' = s).
  { intros s self' w' Hm.
    destruct (mark_paid_returns n self w _ _ _ Hm)
      as [(-> & -> & -> & _)|(-> & _ & _ & Hst & _)].
    - by rewrite Hm.
    - rewrite mark_paid_noop by auto. by rewrite Hst. }
  split; [ | split; [ done | split ] ].
  - intros Hp. rewrite mark_paid_noop by auto. by rewrite Hp.
  - apply mark_paid_raises.
  - intros Hn.
    destruct (mark_paid gen (S (S n)) self w) as [[[s self'] w']|] eqn:Hm.
    + exists s, self', w'. split; [ done | ]. by apply Hsecond.
    + apply mark_paid_raises in Hm as [_ Hc].
      apply check_done_raises_str in Hc. congruence.
Qed.

Lemma open_orders_true bp c r :
  open_orders bp c r = true ↔
  row_billing_profile r = bp ∧ row_cart r = cart_id c ∧
  row_active r = true ∧ row_status r = "created".
Proof.
  unfold open_orders. rewrite !andb_true_iff, !bool_decide_eq_true.
  tauto.
Qed.

Lemma get_or_new_existing (fuel : nat) bp cart_obj w k r c :
  map_to_list (rows (open_orders bp cart_obj) w) = [(k, r)] →
  carts w !! row_cart r = Some c →
  get_or_new gen fuel bp cart_obj w = Some ((from_row k r c, false), w).
Proof.
  intros Hl Hc. unfold get_or_new, bind, count, ret.
  rewrite <- length_map_to_list, Hl. cbn [length].
  rewrite bool_decide_eq_true_2 by done.
  by rewrite (first_one _ _ _ _ _ Hl Hc).
Qed.

Lemma get_or_new_create (n : nat) bp cart_obj w :
  size (rows (open_orders bp cart_obj) w) ≠ 1%nat →
  ∃ self' w' k,
    get_or_new gen (S (S n)) bp cart_obj w = Some ((self', true), w') ∧
    saved gen (new_order bp cart_obj) w self' w' k.
Proof.
  intros Hsz.
  destruct (save_spec gen n (new_order bp cart_obj) w)
    as (self' & w' & k & Hsave & H).
  exists self', w', k. split; [ | done ].
  unfold get_or_new, bind, count, ret, create.
  rewrite bool_decide_eq_false_2 by done. by rewrite Hsave.
Qed.

(** After a first order was created for the pair, it is the one match. *)
Lemma rows_after_create bp cart_obj w self' w' k :
  rows (open_orders bp cart_obj) w = ∅ →
  saved gen (new_order bp cart_obj) w self' w' k →
  rows (open_orders bp cart_obj) w' = {[ k := to_row self' ]}.
Proof.
  intros He H. unfold rows. rewrite (saved_orders _ _ _ _ _ _ H).
  destruct (saved_fields _ _ _ _ _ _ H) as (Hbp & _ & _ & Hc & Hst & _ & Hac).
  rewrite map_filter_insert_True.
  2:{ cbn [snd]. apply open_orders_true. cbn. rewrite Hbp, Hc, Hst, Hac. done. }
  rewrite <- insert_empty. f_equal.
  apply map_empty. intros j. apply map_lookup_filter_None. right.
  intros r' Hj Hq. cbn [snd] in Hq.
  rewrite lookup_fmap in Hj.
  destruct (orders w !! j) as [r0|] eqn:Hr0; [ | done ].
  cbn in Hj. injection Hj as <-.
  assert (Hnot : rows (open_orders bp cart_obj) w !! j = None)
    by (by rewrite He, lookup_empty).
  apply map_lookup_filter_None in Hnot as [Hnot|Hnot]; [ congruence | ].
  specialize (Hnot r0 Hr0). cbn [snd] in Hnot.
  apply open_orders_true in Hq as (Hq1 & Hq2 & Hq3 & Hq4).
  unfold deactivate in *. destruct (siblings (new_order bp cart_obj) r0).
  - done.
  - apply Hnot. by apply open_orders_true.
Qed.

(** C5.  [get_or_new] returns the existing order and [False] when exactly
    one active order with status 'created' matches the billing profile and
    the cart; with no match or several it creates an order bound to them and
    returns it with [True].  Once created, that order is what the next call
    returns, read back from its row, and nothing more is created. *)
Theorem get_or_new_spec (n : nat) (bp : option nat) (cart_obj : Cart)
    (w : World) :
  (size (rows (open_orders bp cart_obj) w) = 1%nat →
   ∀ c, carts w !! cart_id cart_obj = Some c →
   ∃ k r,
     orders w !! k = Some r ∧
     row_billing_profile r = bp ∧ row_cart r = cart_id cart_obj ∧
     row_active r = true ∧ row_status r = "created" ∧
     get_or_new gen (S (S n)) bp cart_obj w
       = Some ((from_row k r c, false), w))
  ∧ (size (rows (open_orders bp cart_obj) w) ≠ 1%nat →
     ∃ self' w' k,
       get_or_new gen (S (S n)) bp cart_obj w = Some ((self', true), w') ∧
       billing_profile self' = bp ∧ cart self' = cart_obj ∧
       pk self' = Some k ∧ orders w !! k = None ∧
       orders w' !! k = Some (to_row self'))
  ∧ (size (rows (open_orders bp cart_obj) w) = 0%nat →
     carts w !! cart_id cart_obj = Some cart_obj →
     ∃ self' w' k,
       get_or_new gen (S (S n)) bp cart_obj w = Some ((self', true), w') ∧
       pk self' = Some k ∧
       get_or_new gen (S (S n)) bp cart_obj w'
         = Some ((from_row k (to_row self') cart_obj, false), w')).
Proof.
  repeat split.
  - intros Hsz c Hc.
    destruct (rows_size_1 _ _ Hsz) as (k & r & Hl & Hk & Hq & _).
    apply open_orders_true in Hq as (Hq1 & Hq2 & Hq3 & Hq4).
    exists k, r. repeat split; try done.
    apply get_or_new_existing; [ done | by rewrite Hq2 ].
  - intros Hsz.
    destruct (get_or_new_create n bp cart_obj w Hsz)
      as (self' & w' & k & Hg & H).
    destruct (saved_fields _ _ _ _ _ _ H) as (Hbp & _ & _ & Hc & _).
    destruct (saved_persisted _ _ _ _ _ _ H) as (k' & Hk' & Hrow).
    pose proof (saved_pk _ _ _ _ _ _ H) as Hpk.
    assert (k' = k) as -> by congruence.
    exists self', w', k. repeat split; try done.
    by apply (saved_pk_new _ _ _ _ _ _ H).
  - intros Hsz Hcart.
    destruct (get_or_new_create n bp cart_obj w ltac:(lia))
      as (self' & w' & k & Hg & H).
    exists self', w', k. split; [ done | ]. split; [ apply H | ].
    apply map_size_empty_inv in Hsz.
    pose proof (rows_after_create _ _ _ _ _ _ Hsz H) as Hrows.
    destruct (saved_fields _ _ _ _ _ _ H) as (_ & _ & _ & Hc & _).
    cbn in Hc.
    apply get_or_new_existing.
    + rewrite Hrows. apply map_to_list_singleton.
    + cbn. rewrite Hc, (saved_carts _ _ _ _ _ _ H). done.
Qed.

Lemma cart_orders_true c r :
  cart_orders c r = true ↔ row_cart r = cart_id c.
Proof. unfold cart_orders. apply bool_decide_eq_true. Qed.

(** With one order on the cart, the [pre_save] receiver finds no sibling. *)
Lemma deactivate_single (o : Order) (w : World) k r :
  orders w !! k = Some r →
  row_billing_profile r = billing_profile o →
  (∀ j r', orders w !! j = Some r' → row_cart r' = cart_id (cart o) → j = k) →
  deactivate o <$> orders w = orders w.
Proof.
  intros Hk Hbp Huniq. apply map_eq. intros j. rewrite lookup_fmap.
  destruct (orders w !! j) as [r0|] eqn:Hj; [ | done ]. cbn. f_equal.
  destruct (decide (j = k)) as [->|Hjk].
  - assert (r0 = r) as -> by congruence. by apply deactivate_same_profile.
  - apply deactivate_foreign. intros Hc. by apply Hjk, (Huniq j r0).
Qed.

(** C6.  When a cart that existed before is saved: if exactly one order
    refers to the cart, the total of that order is recomputed from the
    saved cart and written back, and no other row changes; the new total is
    the cart's total plus the order's shipping_total (exactly so while
    their magnitudes stay below 2^50 hundredths).  If no order or several
    orders refer to the cart, nothing is done and the table is as it
    was. *)
Theorem cart_total_post_save_receiver_spec (n : nat) (instance : Cart)
    (w : World) :
  (size (rows (cart_orders instance) w) = 1%nat →
   carts w !! cart_id instance = Some instance →
   ∃ k r self' w',
     orders w !! k = Some r ∧ row_cart r = cart_id instance ∧
     cart_total_post_save_receiver gen (S (S n)) instance false w
       = Some (tt, w') ∧
     orders w' = <[k := to_row self']> (orders w) ∧
     pk self' = Some k ∧
     total self' = new_total (from_row k r instance) ∧
     same_fields (from_row k r instance) self' ∧
     (Z.abs (cart_total instance) + Z.abs (row_shipping_total r) < 2 ^ 50 →
      total self' = cart_total instance + row_shipping_total r ∧
      row_total <$> orders w' !! k
        = Some (cart_total instance + row_shipping_total r)))
  ∧ (size (rows (cart_orders instance) w) ≠ 1%nat →
     cart_total_post_save_receiver gen (S (S n)) instance false w
       = Some (tt, w)).
Proof.
  split.
  - intros Hsz Hcart.
    destruct (rows_size_1 _ _ Hsz) as (k & r & Hl & Hk & Hq & Huniq).
    apply cart_orders_true in Hq.
    set (o := from_row k r instance).
    destruct (update_total_spec gen n o w) as (self' & w' & k' & Hu & H & Ht).
    assert (k' = k) as ->
      by (symmetry; by apply (saved_pk_old _ _ _ _ _ _ H)).
    exists k, r, self', w'.
    split; [ done | ]. split; [ done | ].
    assert (Horders : orders w' = <[k := to_row self']> (orders w)).
    { rewrite (saved_orders _ _ _ _ _ _ H). f_equal.
      apply (deactivate_single _ w k r); try done.
      intros j r' Hj Hc. apply (Huniq j r' Hj). by apply cart_orders_true. }
    split; [ | split; [ done | split; [ apply H | split; [ done | split;
      [ apply H | ] ] ] ] ].
    2:{ intros Hb.
        assert (Hsum : total self'
                       = cart_total instance + row_shipping_total r).
        { rewrite Ht. unfold new_total, o. cbn [cart shipping_total from_row].
          by apply fsum_two_exact. }
        split; [ done | ].
        rewrite Horders, lookup_insert_eq. cbn. by rewrite Hsum. }
    + unfold cart_total_post_save_receiver, bind, count, ret. cbn [negb].
      rewrite Hsz, bool_decide_eq_true_2 by done.
      rewrite (first_one _ _ k r instance Hl) by (by rewrite Hq).
      fold o. by rewrite Hu.
  - intros Hsz.
    unfold cart_total_post_save_receiver, bind, count, ret. cbn [negb].
    by rewrite bool_decide_eq_false_2.
Qed.


(** C8.  The [pre_save] receiver gives an identifier to an order that has
    none, and marks inactive every order on the same cart that does not
    match the order's billing profile.  So when an order with another
    billing profile is created on the cart of a guest's order, the guest's
    order becomes inactive. *)
Theorem pre_save_receiver_spec :
  (∀ instance w,
     ∃ instance' w',
       order_id_pre_save_receiver gen instance w = Some (instance', w') ∧
       (order_id instance = "" → order_id instance' = gen w instance) ∧
       (order_id instance ≠ "" → order_id instance' = order_id instance) ∧
       (∀ k r, orders w !! k = Some r →
          row_cart r = cart_id (cart instance) →
          row_billing_profile r ≠ billing_profile instance →
          ∃ r', orders w' !! k = Some r' ∧ row_active r' = false))
  ∧ (∀ n w kA rA bpB c,
       orders w !! kA = Some rA →
       row_cart rA = cart_id c →
       row_billing_profile rA ≠ bpB →
       ∃ self' w' rA',
         create gen (S (S n)) bpB c w = Some (self', w') ∧
         billing_profile self' = bpB ∧ active self' = true ∧
         persisted self' w' ∧
         orders w' !! kA = Some rA' ∧ row_active rA' = false).
Proof.
  split.
  - intros instance w. exists (pre_instance gen instance w), (pre_world instance w).
    split; [ apply pre_save_eq | ]. split; [ apply pre_instance_order_id_new | ].
    split; [ apply pre_instance_order_id | ].
    intros k r Hk Hc Hb. exists (deactivate instance r). split.
    + unfold pre_world. cbn [orders set_orders]. by rewrite lookup_fmap, Hk.
    + by apply deactivate_sibling.
  - intros n w kA rA bpB c HA Hc Hb.
    destruct (save_spec gen n (new_order bpB c) w) as (self' & w' & k & Hs & H).
    destruct (saved_fields _ _ _ _ _ _ H) as (Hbp & _ & _ & _ & _ & _ & Hact).
    assert (Hk : kA ≠ k).
    { intros ->. rewrite (saved_pk_new _ _ _ _ _ _ H) in HA; done. }
    exists self', w', (deactivate (new_order bpB c) rA).
    repeat split; try done.
    + by eapply saved_persisted.
    + by rewrite (saved_other_rows _ _ _ _ _ _ _ H Hk), HA.
    + by apply deactivate_sibling.
Qed.

(** C9.  Given a generator that returns non-empty identifiers: after a
    save the order has a non-empty [order_id], which is the one in its row;
    [save], [update_total] and [mark_paid] keep an identifier the instance
    has; and none of the operations changes an identifier present in the
    table.  ([mark_paid] either returns, or has raised the [TypeError] of
    [check_done] before assigning or saving anything.) *)
Theorem order_id_assigned_once :
  generator_contract gen →
  (∀ n self w,
     ∃ self' w',
       save gen (S (S n)) self w = Some (self', w') ∧
       order_id self' ≠ "" ∧ persisted self' w' ∧
       (order_id self ≠ "" → order_id self' = order_id self) ∧
       (coherent self w → keeps_order_ids w w'))
  ∧ (∀ n self w,
     ∃ t self' w',
       update_total gen (S (S n)) self w = Some ((t, self'), w') ∧
       order_id self' ≠ "" ∧
       (order_id self ≠ "" → order_id self' = order_id self) ∧
       (coherent self w → keeps_order_ids w w'))
  ∧ (∀ n self w,
       match mark_paid gen (S (S n)) self w with
       | Some ((s, self'), w') =>
           (order_id self ≠ "" → order_id self' = order_id self) ∧
           (coherent self w → keeps_order_ids w w')
       | None => status self ≠ "paid" ∧ check_done self = None
       end)
  ∧ (∀ n bp c w r,
       get_or_new gen (S (S n)) bp c w = Some r → keeps_order_ids w r.2)
  ∧ (∀ n c created w r,
       cart_total_post_save_receiver gen (S (S n)) c created w = Some r →
       keeps_order_ids w r.2).
Proof.
  intros Hgen.
  assert (Hid : ∀ w, keeps_order_ids w w) by (intros w j r ? ?; eauto).
  assert (Hsave : ∀ n self w,
     ∃ self' w',
       save gen (S (S n)) self w = Some (self', w') ∧
       order_id self' ≠ "" ∧ persisted self' w' ∧
       (order_id self ≠ "" → order_id self' = order_id self) ∧
       (coherent self w → keeps_order_ids w w')).
  { intros n self w.
    destruct (save_spec gen n self w) as (self' & w' & k & Hs & H).
    exists self', w'. split; [ done | ]. split; [ | split; [ | split ] ].
    - destruct (decide (order_id self = "")) as [He|He].
      + destruct (saved_order_id_new _ _ _ _ _ _ H He) as (w0 & i0 & ->).
        apply Hgen.
      + by rewrite (saved_order_id _ _ _ _ _ _ H He).
    - by eapply saved_persisted.
    - apply H.
    - by eapply saved_keeps_order_ids. }
  split; [ done | ]. split; [ | split; [ | split ] ].
  - intros n self w.
    destruct (Hsave n (set_total (new_total self) self) w)
      as (self' & w' & Hs & Hne & _ & Hkeep & Hrows).
    exists (total self'), self', w'. split; [ | done ].
    unfold update_total, Order_update_total, bind, ret. by rewrite Hs.
  - intros n self w.
    destruct (mark_paid gen (S (S n)) self w) as [[[s self'] w']|] eqn:Hm;
      [ | by apply mark_paid_raises in Hm ].
    destruct (mark_paid_returns n self w _ _ _ Hm)
      as [(_ & -> & -> & _)|(_ & _ & _ & _ & k & H)]; [ by split | ].
    split; [ by destruct H | ].
    intros Hco. by eapply saved_keeps_order_ids.
  - intros n bp c w r Hr. unfold get_or_new, bind, count, ret in Hr.
    case_bool_decide.
    + unfold first in Hr.
      destruct (map_to_list _) as [|[k r0] ?]; [ done | ].
      destruct (carts w !! row_cart r0); [ | done ].
      injection Hr as <-. apply Hid.
    + unfold create in Hr.
      destruct (Hsave n (new_order bp c) w) as (self' & w' & Hs & _ & _ & _ & Hrows).
      rewrite Hs in Hr. injection Hr as <-. by apply Hrows.
  - intros n c created w r Hr.
    unfold cart_total_post_save_receiver, bind, count, ret in Hr.
    destruct created; cbn [negb] in Hr; [ injection Hr as <-; apply Hid | ].
    case_bool_decide; [ | injection Hr as <-; apply Hid ].
    unfold first in Hr.
    destruct (map_to_list _) as [|[k r0] ?] eqn:Hl; [ done | ].
    destruct (carts w !! row_cart r0) as [c0|]; [ | done ].
    destruct (Hsave n (set_total (new_total (from_row k r0 c0)) (from_row k r0 c0)) w)
      as (self' & w' & Hs & _ & _ & _ & Hrows).
    unfold update_total, Order_update_total, bind, ret in Hr.
    rewrite Hs in Hr. injection Hr as <-. apply Hrows.
    intros k' r' Hpk Hk' _. cbn in Hpk. injection Hpk as <-.
    assert (Hin : (k, r0) ∈ map_to_list (rows (cart_orders c) w))
      by (rewrite Hl; left).
    apply elem_of_map_to_list, map_lookup_filter_Some in Hin as [Hin _].
    cbn. congruence.
Qed.

(** C10.  The deactivation of sibling orders belongs to every save, first
    or not: after [save], after [update_total] and after a [mark_paid] that
    pays, every other order on the order's cart with a different billing
    profile is inactive. *)
Theorem siblings_inactive_after_every_save (n : nat) (self : Order)
    (w : World) :
  (∃ self' w',
     save gen (S (S n)) self w = Some (self', w') ∧
     siblings_inactive self' w')
  ∧ (∃ t self' w',
       update_total gen (S (S n)) self w = Some ((t, self'), w') ∧
       siblings_inactive self' w')
  ∧ (status self ≠ "paid" → check_done self = Some true →
     ∃ self' w',
       mark_paid gen (S (S n)) self w = Some (("paid", self'), w') ∧
       siblings_inactive self' w').
Proof.
  split; [ | split ].
  - destruct (save_spec gen n self w) as (self' & w' & k & Hs & H).
    eauto using saved_siblings_inactive.
  - destruct (update_total_spec gen n self w) as (self' & w' & k & Hu & H & _).
    eauto 6 using saved_siblings_inactive.
  - intros Hp Hc.
    destruct (mark_paid_transition n self w Hp Hc) as (self' & w' & k & Hm & _ & H).
    eauto using saved_siblings_inactive.
Qed.

End Claims.

(** * The claims at sample data *)

(** C1, witness: a new order on the sample cart, 100.00 + 50.00. *)
Lemma update_total_exact_witness :
  ∃ self' w',
    update_total sample_generator 2 (new_order (Some 1%nat) sample_cart)
      empty_world = Some ((15000, self'), w') ∧
    total self' = 15000 ∧ persisted self' w'.
Proof.
  apply (update_total_exact sample_generator 0
           (new_order (Some 1%nat) sample_cart) empty_world).
  reflexivity.
Defined.

(** C1 as first stated fails: for a cart of 70 368 744 177 614.01 and the
    shipping_total of 50.00, [update_total] stores and returns
    70 368 744 177 664.00, one hundredth less than the decimal sum.  The
    cart total is not a binary64 number, and the sum of the two floats falls
    halfway between two neighbours of spacing 1/64. *)
Lemma update_total_inexact :
  (λ r, r.1.1) <$> update_total sample_generator 2
                     (new_order (Some 1%nat) huge_cart) empty_world
    = Some 7036874417766400
  ∧ cart_total huge_cart + shipping_total (new_order (Some 1%nat) huge_cart)
    = 7036874417766401.
Proof. split; vm_compute; reflexivity. Qed.

Lemma sample_generator_contract : generator_contract sample_generator.
Proof. intros w i. unfold sample_generator. cbn. discriminate. Qed.

(** C9, witness: the first save of a new order with the sample generator. *)
Lemma order_id_assigned_once_witness :
  ∃ self' w',
    save sample_generator 2 (new_order (Some 1%nat) sample_cart) empty_world
      = Some (self', w') ∧
    order_id self' ≠ "" ∧ persisted self' w' ∧
    (order_id (new_order (Some 1%nat) sample_cart) ≠ "" →
     order_id self' = order_id (new_order (Some 1%nat) sample_cart)) ∧
    (coherent (new_order (Some 1%nat) sample_cart) empty_world →
     keeps_order_ids empty_world w').
Proof.
  exact (proj1 (order_id_assigned_once sample_generator
                  sample_generator_contract)
           0%nat (new_order (Some 1%nat) sample_cart) empty_world).
Defined.

(** ** Scenarios, by evaluation *)

(** The guest's order is found again for the guest's billing profile. *)
Example get_or_new_finds_guest_order :
  get_or_new sample_generator 2 (Some 1%nat) sample_cart guest_world
  = Some ((from_row 0 guest_row sample_cart, false), guest_world).
Proof. vm_compute. reflexivity. Qed.

(** Another billing profile on the same cart: a new order, row 1, total
    150.00, and the guest's order is no longer active. *)
Example guest_order_handed_over :
  (λ r, (r.1.2, pk r.1.1, total r.1.1,
         row_active <$> orders r.2 !! 0%nat,
         row_active <$> orders r.2 !! 1%nat))
    <$> get_or_new sample_generator 2 (Some 2%nat) sample_cart guest_world
  = Some (true, Some 1%nat, 15000, Some false, Some true).
Proof. vm_compute. reflexivity. Qed.

(** The cart of the guest's order is saved with a new total of 200.00: the
    order's total follows. *)
Example cart_update_recomputes :
  let cart' := {| cart_id := 7; cart_total := 20000; is_digital := true |} in
  let w := {| orders := orders guest_world;
              carts := {[ 7%nat := cart' ]};
              entropy := 1 |} in
  (λ r, row_total <$> orders r.2 !! 0%nat)
    <$> cart_total_post_save_receiver sample_generator 2 cart' false w
  = Some (Some 25000).
Proof. vm_compute. reflexivity. Qed.

(** [mark_paid] on the ready order: paid on the digital cart, still
    'created' on the physical one. *)
Example mark_paid_digital :
  (λ r, r.1.1) <$> mark_paid sample_generator 2 (ready_order sample_cart)
                     guest_world = Some "paid".
Proof. vm_compute. reflexivity. Qed.

Example mark_paid_physical :
  mark_paid sample_generator 2 (ready_order physical_cart) guest_world
  = Some (("created", ready_order physical_cart), guest_world).
Proof. vm_compute. reflexivity. Qed.

(** The order [create] hands back holds its total as a string: with a
    billing address set, [check_done] and [mark_paid] raise on it. *)
Example check_done_on_created_order :
  (λ r, (total r.1, total_is_str r.1,
         check_done (set_billing_address (Some 3%nat) r.1)))
    <$> create sample_generator 2 (Some 1%nat) sample_cart empty_world
  = Some (15000, true, None).
Proof. vm_compute. reflexivity. Qed.

Example mark_paid_on_created_order :
  (λ r, mark_paid sample_generator 2 (set_billing_address (Some 3%nat) r.1)
          r.2)
    <$> create sample_generator 2 (Some 1%nat) sample_cart empty_world
  = Some None.
Proof. vm_compute. reflexivity. Qed.

(** The same order read back from its row holds a [Decimal]: there
    [check_done] answers. *)
Example check_done_on_order_read_back :
  (λ r, (r.1.2, total_is_str r.1.1,
         check_done (set_billing_address (Some 3%nat) r.1.1)))
    <$> (o <- create sample_generator 2 (Some 1%nat) sample_cart;;
         get_or_new sample_generator 2 (Some 1%nat) sample_cart)
          {| orders := ∅; carts := {[ cart_id sample_cart := sample_cart ]};
             entropy := 0 |}
  = Some (false, false, Some true).
Proof. vm_compute. reflexivity. Qed.

(** One nested save is not enough for a first save: the receiver of
    [post_save] saves again. *)
Example first_save_needs_two_levels :
  save sample_generator 1 (new_order (Some 1%nat) sample_cart) empty_world
  = None.
Proof. vm_compute. reflexivity. Qed.

(** * Further facts *)

(** ** Rounding: sign and accuracy *)

Section FloatAccuracy.
Import Float.
Local Open Scope Q_scope.

Lemma round_half_even_nonneg (x : Q) : 0 <= x -> (0 <= round_half_even x)%Z.
Proof.
  intros Hx. pose proof (Qfloor_resp_le 0 x Hx) as Hf.
  change (Qfloor 0) with 0%Z in Hf. unfold round_half_even.
  destruct (_ ?= _); [ destruct (Z.even _) | | ]; lia.
Qed.

Lemma RN_nonneg (x : Q) : 0 <= x -> 0 <= RN x.
Proof.
  intros Hx. unfold RN. destruct (Qnum x); [ done | | ]; rewrite Qred_correct.
  all: apply Qmult_le_0_compat; [ | apply Qlt_le_weak, two_pow_pos ].
  all: change 0 with (inject_Z 0); rewrite <- Zle_Qle.
  all: apply round_half_even_nonneg.
  all: apply Qle_shift_div_l; [ apply two_pow_pos | by rewrite Qmult_0_l ].
Qed.

Lemma fsum_two_nonneg (x y : Z) :
  (0 <= x)%Z -> (0 <= y)%Z ->
  (0 <= quantize_2f (fsum [of_cents x; of_cents y]))%Z.
Proof.
  intros Hx Hy. unfold quantize_2f, fsum, of_cents. cbn [foldr].
  assert (Hc : forall c : Z, (0 <= c)%Z -> 0 <= RN (c # 100)).
  { intros c Hc. apply RN_nonneg. unfold Qle. simpl. lia. }
  pose proof (Hc x Hx) as Ha. pose proof (Hc y Hy) as Hb.
  apply round_half_even_nonneg.
  assert (Hs : 0 <= RN (RN (x # 100) + (RN (y # 100) + 0)))
    by (apply RN_nonneg; lra).
  lra.
Qed.

(** Relative error of one rounding: at most 2^-53 of the magnitude. *)
Lemma RN_relative_error (x : Q) :
  Qabs (RN x - x) <= Qabs x * (1 # 2 ^ 53).
Proof.
  unfold RN.
  destruct (Qnum x) eqn:Hnum;
    [ assert (Hx0 : x == 0) by (unfold Qeq; rewrite Hnum; reflexivity);
      rewrite Hx0; discriminate | .. ].
  all: assert (Hx : 0 < Qabs x)
         by (apply Qabs_case; intros; unfold Qlt, Qle in *; simpl in *; lia).
  all: set (e := (ilog2 (Qabs x) - (prec - 1))%Z).
  all: pose proof (ilog2_le _ Hx) as Hl.
  all: pose proof (round_half_even_bounds (x / 2 ^ e)) as [Hm1 Hm2].
  all: set (m := inject_Z (round_half_even (x / 2 ^ e))) in *.
  all: rewrite Qred_correct.
  all: pose proof (two_pow_pos e) as HP.
  all: assert (Hy : x / 2 ^ e * 2 ^ e == x) by (field; lra).
  all: assert (He : 2 ^ ilog2 (Qabs x) == 2 ^ e * (2 ^ 52 # 1))
         by (unfold e, prec;
             replace (ilog2 (Qabs x)) with (ilog2 (Qabs x) - (53 - 1) + 52)%Z
               at 1 by lia;
             rewrite Qpower_plus by discriminate; reflexivity).
  all: rewrite He in Hl.
  all: set (P := 2 ^ e) in *; set (y := x / P) in *.
  all: set (A := Qabs x) in *.
  all: apply Qabs_Qle_condition; split.
  all: try (change (1 # 2 ^ 53) with (1 # 9007199254740992)).
  all: try (change (2 ^ 52 # 1) with (4503599627370496 # 1) in Hl).
  all: nra.
Qed.

Lemma Qabs_inject_Z (z : Z) : Qabs (inject_Z z) = inject_Z (Z.abs z).
Proof. reflexivity. Qed.

Lemma of_cents_relative_error (c : Z) :
  Qabs (of_cents c - inject_Z c * (1 # 100))
  <= inject_Z (Z.abs c) * (1 # 100) * (1 # 2 ^ 53).
Proof.
  unfold of_cents.
  change (inject_Z c * (1 # 100)) with (inject_Z c / inject_Z 100).
  rewrite <- (Qmake_Qdiv c 100).
  eapply Qle_trans; [ apply RN_relative_error | ].
  change (Qabs (c # 100)) with (Z.abs c # 100).
  rewrite (Qmake_Qdiv (Z.abs c) 100).
  change (inject_Z (Z.abs c) / inject_Z 100)
    with (inject_Z (Z.abs c) * (1 # 100)).
  apply Qle_refl.
Qed.

Lemma fsum_two_accuracy (x y : Z) :
  (2 ^ 52 * Z.abs (quantize_2f (fsum [of_cents x; of_cents y]) - (x + y))
   <= 2 ^ 51 + 2 * (Z.abs x + Z.abs y))%Z.
Proof.
  pose proof (of_cents_relative_error x) as Ha.
  pose proof (of_cents_relative_error y) as Hb.
  apply Qabs_Qle_condition in Ha, Hb.
  set (a := of_cents x) in *. set (b := of_cents y) in *.
  unfold fsum, quantize_2f. cbn [foldr].
  pose proof (RN_relative_error (a + (b + 0))) as Hs.
  set (s := RN (a + (b + 0))) in *.
  pose proof (round_half_even_bounds (s * 100)) as [Hm1 Hm2].
  set (m := round_half_even (s * 100)) in *.
  assert (HX : - inject_Z (Z.abs x) <= inject_Z x <= inject_Z (Z.abs x))
    by (rewrite <- inject_Z_opp, <- !Zle_Qle; lia).
  assert (HY : - inject_Z (Z.abs y) <= inject_Z y <= inject_Z (Z.abs y))
    by (rewrite <- inject_Z_opp, <- !Zle_Qle; lia).
  assert (HAX : 0 <= inject_Z (Z.abs x))
    by (change 0 with (inject_Z 0); rewrite <- Zle_Qle; lia).
  assert (HAY : 0 <= inject_Z (Z.abs y))
    by (change 0 with (inject_Z 0); rewrite <- Zle_Qle; lia).
  set (AX := inject_Z (Z.abs x)) in *. set (AY := inject_Z (Z.abs y)) in *.
  set (X := inject_Z x) in *. set (Y := inject_Z y) in *.
  change (1 # 2 ^ 53) with (1 # 9007199254740992) in *.
  assert (Hd : Qabs (inject_Z m - (X + Y))
               <= (1 # 2) + (AX + AY) * (1 # 2251799813685248)).
  { apply Qabs_Qle_condition in Hs.
    revert Hs. apply Qabs_case; intros Hsign Hs;
      apply Qabs_Qle_condition; split; lra. }
  assert (Hz : inject_Z (2 ^ 52 * Z.abs (m - (x + y)))
               <= inject_Z (2 ^ 51 + 2 * (Z.abs x + Z.abs y))).
  { rewrite inject_Z_mult, <- Qabs_inject_Z.
    unfold Zminus. rewrite !inject_Z_plus, inject_Z_mult, inject_Z_opp,
      !inject_Z_plus.
    fold X Y AX AY.
    change (inject_Z (2 ^ 52)) with (4503599627370496 # 1).
    change (inject_Z (2 ^ 51)) with (2251799813685248 # 1).
    change (inject_Z 2) with 2.
    setoid_replace (inject_Z m + - (X + Y)) with (inject_Z m - (X + Y))
      using relation Qeq by ring.
    lra. }
  rewrite Zle_Qle. exact Hz.
Qed.

End FloatAccuracy.

(** ** The store, the query sets and the labels *)

Section Extras.

Variable gen : World → Order → string.

Lemma rows_lookup (qs : QuerySet) (w : World) (j : nat) :
  rows qs w !! j =
  match orders w !! j with
  | Some r => if qs r then Some r else None
  | None => None
  end.
Proof.
  unfold rows. destruct (orders w !! j) as [r|] eqn:Hj.
  - destruct (qs r) eqn:Hq.
    + by apply map_lookup_filter_Some.
    + apply map_lookup_filter_None. right. intros r' Hr'. cbn.
      assert (r' = r) as -> by congruence. by rewrite Hq.
  - apply map_lookup_filter_None. by left.
Qed.

Lemma saved_lookup self w self' w' k j :
  saved gen self w self' w' k →
  orders w' !! j =
  if decide (j = k) then Some (to_row self')
  else deactivate self <$> orders w !! j.
Proof.
  intros H. rewrite (saved_orders _ _ _ _ _ _ H).
  destruct (decide (j = k)) as [->|Hjk].
  - apply lookup_insert_eq.
  - rewrite lookup_insert_ne by done. apply lookup_fmap.
Qed.

(** [save] does the same whatever depth is left beyond two. *)
Lemma save_fuel_irrelevant (n : nat) (self : Order) (w : World) :
  save gen (S (S n)) self w = save gen 2 self w.
Proof.
  destruct (pk self) as [k|] eqn:Hpk.
  - destruct (orders w !! k) as [r|] eqn:Hr.
    + by rewrite !(save_existing _ _ _ _ k).
    + rewrite !save_unfold, (save_once_update gen self w k Hpk), Hr.
      rewrite bool_decide_eq_true_2 by done.
      rewrite !(save_existing _ _ _ _ k); try done.
      all: cbn [orders set_orders pk set_total];
        rewrite ?pre_instance_pk, ?lookup_insert_eq; by eauto.
  - rewrite !save_unfold, (save_once_insert gen self w Hpk).
    rewrite !(save_existing _ _ _ _ (fresh (dom (orders w)))); try done.
    all: cbn [orders set_orders]; rewrite lookup_insert_eq; by eauto.
Qed.

Lemma save_one_level (self : Order) (w : World) :
  save gen 1 self w = None ↔ is_insert self w = true.
Proof.
  rewrite save_unfold. unfold is_insert.
  destruct (pk self) as [k|] eqn:Hpk.
  - rewrite (save_once_update gen self w k Hpk).
    destruct (bool_decide (orders w !! k = None)); cbn; naive_solver.
  - rewrite (save_once_insert gen self w Hpk). cbn. done.
Qed.

Lemma deactivate_only_active i r :
  set_row_active false (deactivate i r) = set_row_active false r.
Proof. unfold deactivate. by destruct (siblings i r). Qed.

Lemma deactivate_inactive i r : row_active r = false → deactivate i r = r.
Proof.
  intros Ha. unfold deactivate. destruct (siblings i r); [ | done ].
  destruct r. cbn in *. by subst.
Qed.

Lemma saved_only_touches self w self' w' k :
  saved gen self w self' w' k →
  only_touches k (cart_id (cart self)) w w'.
Proof.
  intros H. split; [ apply H | split ].
  - intros j Hj Hn. rewrite (saved_lookup _ _ _ _ _ j H).
    rewrite decide_False by done. by rewrite Hn.
  - intros j r Hj Hr. exists (deactivate self r).
    rewrite (saved_lookup _ _ _ _ _ j H), decide_False, Hr by done.
    split; [ done | ]. split; [ apply deactivate_only_active | ].
    split; [ apply deactivate_foreign | apply deactivate_inactive ].
Qed.

Lemma only_touches_refl k c w : only_touches k c w w.
Proof. split; [ done | split ]; [ done | ]. intros j r _ Hr. by exists r. Qed.

(** X5.  [save], [update_total] and [mark_paid] write one order row and
    nothing else: the cart table is untouched, no other row is added or
    removed, a row on another cart or an inactive row is left as it is, and
    the remaining rows change at most in [active].  ([mark_paid] either
    returns, or has raised the [TypeError] of [check_done] before it wrote
    anything.) *)
Theorem saves_touch_one_order (n : nat) (self : Order) (w : World) :
  (∃ self' w' k,
     save gen (S (S n)) self w = Some (self', w') ∧ pk self' = Some k ∧
     only_touches k (cart_id (cart self)) w w')
  ∧ (∃ t self' w' k,
       update_total gen (S (S n)) self w = Some ((t, self'), w') ∧
       pk self' = Some k ∧
       only_touches k (cart_id (cart self)) w w')
  ∧ match mark_paid gen (S (S n)) self w with
    | Some ((s, self'), w') =>
        ∃ k, (pk self' = Some k ∨ w' = w) ∧
             only_touches k (cart_id (cart self)) w w'
    | None => status self ≠ "paid" ∧ check_done self = None
    end.
Proof.
  split; [ | split ].
  - destruct (save_spec gen n self w) as (self' & w' & k & Hs & H).
    exists self', w', k. split; [ done | ]. split; [ apply H | ].
    by apply (saved_only_touches _ _ _ _ _ H).
  - destruct (update_total_spec gen n self w) as (self' & w' & k & Hu & H & _).
    exists (total self'), self', w', k. split; [ done | ].
    split; [ apply H | ]. by apply (saved_only_touches _ _ _ _ _ H).
  - destruct (mark_paid gen (S (S n)) self w) as [[[s self'] w']|] eqn:Hm;
      [ | by apply mark_paid_raises in Hm ].
    destruct (mark_paid_returns gen n self w _ _ _ Hm)
      as [(_ & -> & -> & _)|(_ & _ & _ & _ & k & H)].
    + exists 0%nat. split; [ by right | apply only_touches_refl ].
    + exists k. split; [ left; apply H | ].
      by apply (saved_only_touches _ _ _ _ _ H).
Qed.

(** X4.  The chain save, [post_save], [update_total], save stops after one
    nested save: two levels always suffice and give the same result as any
    larger depth; one level fails exactly for a save that inserts, and is
    all that a save of an existing row uses. *)
Theorem save_nesting_depth (self : Order) (w : World) :
  (∀ n, save gen (S (S n)) self w = save gen 2 self w)
  ∧ is_Some (save gen 2 self w)
  ∧ (save gen 1 self w = None ↔ is_insert self w = true)
  ∧ (is_insert self w = false → save gen 1 self w = save gen 2 self w).
Proof.
  split; [ intros n; apply save_fuel_irrelevant | ].
  split.
  { destruct (save_spec gen 0 self w) as (self' & w' & k & Hs & _).
    rewrite Hs. by eexists. }
  split; [ apply save_one_level | ].
  intros Hins. unfold is_insert in Hins.
  destruct (pk self) as [k|] eqn:Hpk; [ | done ].
  apply bool_decide_eq_false in Hins.
  destruct (orders w !! k) as [r|] eqn:Hr; [ | done ].
  by rewrite !(save_existing _ _ _ _ k).
Qed.

(** X6.  On the instance, [save] and [update_total] keep billing profile,
    addresses, cart, status, shipping_total and [active], and a key once
    set; [mark_paid] keeps them too apart from the status it returns.  A
    save that does not insert, also inside [mark_paid], keeps the total.
    ([mark_paid] either returns, or has raised the [TypeError] of
    [check_done] before it assigned anything.) *)
Theorem instance_fields_kept (n : nat) (self : Order) (w : World) :
  (∃ self' w',
     save gen (S (S n)) self w = Some (self', w') ∧ same_fields self self' ∧
     (∀ k, pk self = Some k → pk self' = Some k) ∧
     (is_insert self w = false → total self' = total self))
  ∧ (∃ t self' w',
       update_total gen (S (S n)) self w = Some ((t, self'), w') ∧
       same_fields self self' ∧
       (∀ k, pk self = Some k → pk self' = Some k))
  ∧ match mark_paid gen (S (S n)) self w with
    | Some ((s, self'), w') =>
        same_fields (set_status s self) self' ∧
        (∀ k, pk self = Some k → pk self' = Some k) ∧
        (is_insert self w = false → total self' = total self)
    | None => status self ≠ "paid" ∧ check_done self = None
    end.
Proof.
  assert (Hpk : ∀ i w0 i' w0' k0, saved gen i w0 i' w0' k0 →
                ∀ k, pk i = Some k → pk i' = Some k).
  { intros i w0 i' w0' k0 H k Hk.
    rewrite (saved_pk _ _ _ _ _ _ H). f_equal. symmetry.
    by apply (saved_pk_old _ _ _ _ _ _ H). }
  split; [ | split ].
  - destruct (save_spec gen n self w) as (self' & w' & k & Hs & H).
    exists self', w'. split; [ done | ]. split; [ apply H | ].
    split; [ by eapply Hpk | ].
    intros Hins. rewrite (saved_total _ _ _ _ _ _ H). by rewrite Hins.
  - destruct (update_total_spec gen n self w) as (self' & w' & k & Hu & H & _).
    exists (total self'), self', w'. split; [ done | ].
    split; [ apply (saved_fields _ _ _ _ _ _ H) | ].
    apply (Hpk _ _ _ _ _ H).
  - destruct (mark_paid gen (S (S n)) self w) as [[[s self'] w']|] eqn:Hm;
      [ | by apply mark_paid_raises in Hm ].
    destruct (mark_paid_returns gen n self w _ _ _ Hm)
      as [(-> & -> & -> & _)|(-> & _ & _ & _ & k & H)].
    + by split; [ | split ].
    + split; [ apply H | ]. split; [ apply (Hpk _ _ _ _ _ H) | ].
      intros Hins. rewrite (saved_total _ _ _ _ _ _ H).
      change (is_insert (set_status "paid" self) w) with (is_insert self w).
      by rewrite Hins.
Qed.

Lemma check_done_cases (self : Order) :
  (check_done self = Some true ↔
     billing_profile self ≠ None ∧ billing_address self ≠ None ∧
     (is_digital (cart self) = true ∨ shipping_address self ≠ None) ∧
     total_is_str self = false ∧ 0 < total self)
  ∧ (check_done self = None ↔
       billing_profile self ≠ None ∧ billing_address self ≠ None ∧
       (is_digital (cart self) = true ∨ shipping_address self ≠ None) ∧
       total_is_str self = true).
Proof.
  unfold check_done.
  destruct (billing_profile self), (billing_address self),
    (shipping_address self), (is_digital (cart self)),
    (total_is_str self), (Z.ltb_spec 0 (total self)); cbn;
    intuition (discriminate || congruence || lia).
Qed.

(** X9.  The outcomes of [mark_paid].  It raises (the [TypeError] of
    [check_done]) exactly when the order is not paid yet, has a billing
    profile, a billing address and a digital cart or a shipping address, and
    holds its total as the string left by [update_total].  When it returns,
    it returns the status of the instance, and that is 'paid' exactly when
    the order was paid already or is complete with a positive number as its
    total; in every other case it returns the old status and changes
    neither the instance nor the database.  With a number as the total it
    always returns. *)
Theorem paid_only_when_complete (n : nat) (self : Order) (w : World) :
  (mark_paid gen (S (S n)) self w = None ↔
     status self ≠ "paid" ∧
     billing_profile self ≠ None ∧ billing_address self ≠ None ∧
     (is_digital (cart self) = true ∨ shipping_address self ≠ None) ∧
     total_is_str self = true)
  ∧ (∀ s self' w',
       mark_paid gen (S (S n)) self w = Some ((s, self'), w') →
       status self' = s ∧
       (s = "paid" ↔
          status self = "paid" ∨
          (billing_profile self ≠ None ∧ billing_address self ≠ None ∧
           (is_digital (cart self) = true ∨ shipping_address self ≠ None) ∧
           total_is_str self = false ∧ 0 < total self)) ∧
       (s ≠ "paid" → s = status self ∧ self' = self ∧ w' = w))
  ∧ (total_is_str self = false →
     ∃ s self' w', mark_paid gen (S (S n)) self w = Some ((s, self'), w')).
Proof.
  destruct (check_done_cases self) as [Htrue Hnone].
  split; [ | split ].
  - rewrite mark_paid_raises. by rewrite Hnone.
  - intros s self' w' Hm.
    destruct (mark_paid_returns gen n self w _ _ _ Hm)
      as [(-> & -> & -> & Hwhy)|(-> & Hp & Hc & Hst & _)].
    + split; [ done | ]. split; [ | done ].
      split; [ by left | ].
      intros [Hp|Hall]; [ done | ].
      destruct Hwhy as [Hp|Hf]; [ done | ].
      apply Htrue in Hall. congruence.
    + split; [ done | ]. split; [ | done ].
      split; [ | done ]. intros _. right. by apply Htrue.
  - intros Hnum.
    destruct (mark_paid gen (S (S n)) self w) as [[[s self'] w']|] eqn:Hm;
      [ by eauto | ].
    apply mark_paid_raises in Hm as [_ Hc]. apply Hnone in Hc.
    destruct Hc as (_ & _ & _ & Hstr). congruence.
Qed.

Lemma rows_saved_lookup (P : QuerySet) self w self' w' k j :
  saved gen self w self' w' k →
  rows P w' !! j =
  if decide (j = k)
  then (if P (to_row self') then Some (to_row self') else None)
  else match orders w !! j with
       | Some r =>
           if P (deactivate self r) then Some (deactivate self r) else None
       | None => None
       end.
Proof.
  intros H. rewrite rows_lookup, (saved_lookup _ _ _ _ _ j H).
  destruct (decide (j = k)); [ done | ]. by destruct (orders w !! j).
Qed.

Lemma open_orders_deactivate bp c i r :
  open_orders bp c (deactivate i r) = open_orders bp c r && negb (siblings i r).
Proof.
  unfold deactivate. destruct (siblings i r) eqn:Hs; cbn.
  - rewrite andb_false_r. unfold open_orders. cbn.
    rewrite (bool_decide_eq_false_2 (false = true)) by done.
    by rewrite andb_false_r.
  - by rewrite andb_true_r.
Qed.

Lemma open_orders_not_sibling bp c r :
  open_orders bp c r = true → siblings (new_order bp c) r = false.
Proof.
  intros (Hb & _)%open_orders_true. unfold siblings. cbn.
  rewrite (bool_decide_eq_true_2 _ Hb). by rewrite andb_false_r.
Qed.

(** X8.  Whenever [get_or_new] does not find exactly one open order, the
    order it creates is itself an open order for the pair and the earlier
    matches stay: their number grows by one, also when there were two or
    more already. *)
Theorem get_or_new_adds_a_match (n : nat) (bp : option nat) (cart_obj : Cart)
    (w : World) :
  size (rows (open_orders bp cart_obj) w) ≠ 1%nat →
  ∃ self' w' k,
    get_or_new gen (S (S n)) bp cart_obj w = Some ((self', true), w') ∧
    pk self' = Some k ∧
    rows (open_orders bp cart_obj) w'
      = <[k := to_row self']> (rows (open_orders bp cart_obj) w) ∧
    size (rows (open_orders bp cart_obj) w')
      = S (size (rows (open_orders bp cart_obj) w)).
Proof.
  intros Hsz.
  destruct (get_or_new_create gen n bp cart_obj w Hsz)
    as (self' & w' & k & Hg & H).
  pose proof (saved_pk_new _ _ _ _ _ _ H eq_refl) as Hfresh.
  assert (Hrows : rows (open_orders bp cart_obj) w'
                  = <[k := to_row self']> (rows (open_orders bp cart_obj) w)).
  { apply map_eq. intros j. rewrite (rows_saved_lookup _ _ _ _ _ _ j H).
    destruct (decide (j = k)) as [->|Hjk].
    - rewrite lookup_insert_eq.
      destruct (saved_fields _ _ _ _ _ _ H) as (Hb & _ & _ & Hc & Hst & _ & Ha).
      assert (Ho : open_orders bp cart_obj (to_row self') = true).
      { apply open_orders_true. cbn. by rewrite Hb, Hc, Hst, Ha. }
      by rewrite Ho.
    - rewrite lookup_insert_ne, rows_lookup by done.
      destruct (orders w !! j) as [r|]; [ | done ].
      rewrite open_orders_deactivate.
      destruct (open_orders bp cart_obj r) eqn:Ho; [ | done ].
      rewrite (open_orders_not_sibling _ _ _ Ho). cbn.
      unfold deactivate. by rewrite (open_orders_not_sibling _ _ _ Ho). }
  exists self', w', k. split; [ done | ]. split; [ apply H | ].
  split; [ done | ]. rewrite Hrows. apply map_size_insert_None.
  by rewrite rows_lookup, Hfresh.
Qed.

Lemma get_or_new_none (n : nat) bp c w :
  rows (open_orders bp c) w = ∅ →
  ∃ self' w' k,
    get_or_new gen (S (S n)) bp c w = Some ((self', true), w') ∧
    saved gen (new_order bp c) w self' w' k.
Proof.
  intros He. apply get_or_new_create. by rewrite He, map_size_empty.
Qed.

(** X13.  After an order for another billing profile was created on a
    cart, no open order of the first profile is left on that cart: its
    [get_or_new] creates a new order, and the save of that one makes the
    other profile's order inactive in turn. *)
Theorem handover_makes_old_order_unreachable (n : nat) (A B : option nat)
    (c : Cart) (w : World) :
  A ≠ B →
  ∃ oB wB kB,
    create gen (S (S n)) B c w = Some (oB, wB) ∧ pk oB = Some kB ∧
    rows (open_orders A c) wB = ∅ ∧
    ∃ oA wA kA,
      get_or_new gen (S (S n)) A c wB = Some ((oA, true), wA) ∧
      pk oA = Some kA ∧ kA ≠ kB ∧
      row_active <$> orders wA !! kB = Some false.
Proof.
  intros HAB.
  destruct (save_spec gen n (new_order B c) w) as (oB & wB & kB & Hs & H).
  destruct (saved_fields _ _ _ _ _ _ H) as (Hb & _ & _ & Hc & _).
  cbn in Hb, Hc.
  assert (Hrows : rows (open_orders A c) wB = ∅).
  { apply map_empty. intros j. rewrite (rows_saved_lookup _ _ _ _ _ _ j H).
    destruct (decide (j = kB)) as [->|Hj].
    - assert (Ho : open_orders A c (to_row oB) = false).
      { apply not_true_is_false. intros (Ho & _)%open_orders_true.
        cbn in Ho. congruence. }
      by rewrite Ho.
    - destruct (orders w !! j) as [r|]; [ | done ].
      rewrite open_orders_deactivate.
      destruct (open_orders A c r) eqn:Ho; [ | done ].
      apply open_orders_true in Ho as (Ho1 & Ho2 & _).
      assert (Hsib : siblings (new_order B c) r = true).
      { unfold siblings. cbn. rewrite bool_decide_eq_true_2 by done.
        by rewrite bool_decide_eq_false_2 by congruence. }
      by rewrite Hsib. }
  exists oB, wB, kB. split; [ done | ]. split; [ apply H | ].
  split; [ done | ].
  destruct (get_or_new_none n A c wB Hrows) as (oA & wA & kA & Hg & HA).
  pose proof (saved_pk_new _ _ _ _ _ _ HA eq_refl) as Hfresh.
  assert (HkB : orders wB !! kB = Some (to_row oB))
    by (rewrite (saved_orders _ _ _ _ _ _ H); apply lookup_insert_eq).
  assert (Hne : kB ≠ kA) by (intros ->; congruence).
  exists oA, wA, kA. split; [ done | ]. split; [ apply HA | ].
  split; [ done | ].
  rewrite (saved_lookup _ _ _ _ _ kB HA), decide_False, HkB by done. cbn.
  f_equal. apply deactivate_sibling; cbn; congruence.
Qed.

(** X12.  Once [mark_paid] has paid an order that was the only open order
    of its billing profile and cart, no open order is left for the pair, and
    the next [get_or_new] creates a new order under another key. *)
Theorem paid_order_is_not_reused (n m : nat) (self : Order) (w : World)
    (bp : option nat) (c : Cart) (k : nat) :
  pk self = Some k →
  (∀ j, listed (open_orders bp c) w j → j = k) →
  status self ≠ "paid" → check_done self = Some true →
  ∃ self' w',
    mark_paid gen (S (S n)) self w = Some (("paid", self'), w') ∧
    rows (open_orders bp c) w' = ∅ ∧
    ∃ o w'' k',
      get_or_new gen (S (S m)) bp c w' = Some ((o, true), w'') ∧
      pk o = Some k' ∧ k' ≠ k.
Proof.
  intros Hpk Huniq Hp Hc.
  destruct (mark_paid_transition gen n self w Hp Hc)
    as (self' & w' & k0 & Hm & Hst & H).
  assert (k0 = k) as ->
    by (symmetry; by apply (saved_pk_old _ _ _ _ _ _ H)).
  assert (Hrows : rows (open_orders bp c) w' = ∅).
  { apply map_empty. intros j. rewrite (rows_saved_lookup _ _ _ _ _ _ j H).
    destruct (decide (j = k)) as [->|Hj].
    - assert (Ho : open_orders bp c (to_row self') = false).
      { apply not_true_is_false. intros (_ & _ & _ & Ho)%open_orders_true.
        cbn in Ho. congruence. }
      by rewrite Ho.
    - destruct (orders w !! j) as [r|] eqn:Hr; [ | done ].
      rewrite open_orders_deactivate.
      destruct (open_orders bp c r) eqn:Ho; [ | done ].
      exfalso. apply Hj, Huniq. unfold listed.
      rewrite rows_lookup, Hr, Ho. by eexists. }
  exists self', w'. split; [ done | ]. split; [ done | ].
  destruct (get_or_new_none m bp c w' Hrows) as (o & w'' & k' & Hg & Ho).
  pose proof (saved_pk_new _ _ _ _ _ _ Ho eq_refl) as Hfresh.
  exists o, w'', k'. split; [ done | ]. split; [ apply Ho | ].
  intros ->. rewrite (saved_orders _ _ _ _ _ _ H), lookup_insert_eq in Hfresh.
  done.
Qed.

(** Whatever [get_or_new] returns is a row of the table with the billing
    profile asked for and status 'created'. *)
Lemma get_or_new_row (n : nat) bp c c' w :
  carts w !! cart_id c = Some c' →
  ∃ o b w' k r,
    get_or_new gen (S (S n)) bp c w = Some ((o, b), w') ∧
    pk o = Some k ∧ orders w' !! k = Some r ∧
    row_billing_profile r = bp ∧ row_status r = "created".
Proof.
  intros Hc.
  destruct (decide (size (rows (open_orders bp c) w) = 1%nat)) as [Hsz|Hsz].
  - destruct (rows_size_1 _ _ Hsz) as (k & r & Hl & Hk & Hq & _).
    apply open_orders_true in Hq as (Hq1 & Hq2 & _ & Hq4).
    exists (from_row k r c'), false, w, k, r.
    split; [ | done ].
    apply get_or_new_existing; [ done | by rewrite Hq2 ].
  - destruct (get_or_new_create gen n bp c w Hsz) as (o & w' & k & Hg & H).
    destruct (saved_fields _ _ _ _ _ _ H) as (Hb & _ & _ & _ & Hst & _).
    exists o, true, w', k, (to_row o). split; [ done | ].
    split; [ apply H | ]. split; [ | done ].
    rewrite (saved_orders _ _ _ _ _ _ H). apply lookup_insert_eq.
Qed.

(** X2.  [not_created] does not list the order [get_or_new] returns, found
    or new, although it is a row of the table; it lists an order as soon as
    [mark_paid] has paid it. *)
Theorem not_created_lists_paid_orders (n : nat) :
  (∀ bp c c' w,
     carts w !! cart_id c = Some c' →
     ∃ o b w' k,
       get_or_new gen (S (S n)) bp c w = Some ((o, b), w') ∧
       pk o = Some k ∧ listed get_queryset w' k ∧
       ¬ listed (not_created get_queryset) w' k)
  ∧ (∀ self w,
       status self ≠ "paid" → check_done self = Some true →
       ∃ self' w' k,
         mark_paid gen (S (S n)) self w = Some (("paid", self'), w') ∧
         pk self' = Some k ∧ listed (not_created get_queryset) w' k).
Proof.
  split.
  - intros bp c c' w Hc.
    destruct (get_or_new_row n bp c c' w Hc)
      as (o & b & w' & k & r & Hg & Hpk & Hr & _ & Hst).
    exists o, b, w', k. split; [ done | ]. split; [ done | ].
    unfold listed. rewrite !rows_lookup, Hr. unfold not_created, get_queryset.
    rewrite (bool_decide_eq_true_2 _ Hst). cbn.
    split; [ by eexists | by intros [? ?] ].
  - intros self w Hp Hc.
    destruct (mark_paid_transition gen n self w Hp Hc)
      as (self' & w' & k & Hm & Hst & H).
    exists self', w', k. split; [ done | ]. split; [ apply H | ].
    unfold listed. rewrite rows_lookup, (saved_orders _ _ _ _ _ _ H),
      lookup_insert_eq.
    unfold not_created, get_queryset. cbn. rewrite Hst.
    rewrite bool_decide_eq_false_2 by done. by eexists.
Qed.

Section ByRequestFacts.
Variable Request : Type.
Variable resolve : Request → option nat * bool.

(** X3.  [by_request] lists the order that [get_or_new] returns for the
    billing profile of the request; and a save of any order neither adds
    another order to the list nor takes one away, so orders made inactive
    stay listed. *)
Theorem by_request_lists_own_orders (n : nat) (request : Request) :
  (∀ c c' w,
     carts w !! cart_id c = Some c' →
     ∃ o b w' k,
       get_or_new gen (S (S n)) (resolve request).1 c w = Some ((o, b), w') ∧
       pk o = Some k ∧
       listed (OrderManager_by_request Request resolve request) w' k)
  ∧ (∀ self w,
       ∃ self' w' k,
         save gen (S (S n)) self w = Some (self', w') ∧ pk self' = Some k ∧
         ∀ j, j ≠ k →
              (listed (OrderManager_by_request Request resolve request) w j ↔
               listed (OrderManager_by_request Request resolve request) w' j)).
Proof.
  unfold OrderManager_by_request, by_request, get_queryset.
  destruct (resolve request) as [bp created]. cbn [fst].
  split.
  - intros c c' w Hc.
    destruct (get_or_new_row n bp c c' w Hc)
      as (o & b & w' & k & r & Hg & Hpk & Hr & Hb & _).
    exists o, b, w', k. split; [ done | ]. split; [ done | ].
    unfold listed. rewrite rows_lookup, Hr. cbn.
    rewrite (bool_decide_eq_true_2 _ Hb). by eexists.
  - intros self w.
    destruct (save_spec gen n self w) as (self' & w' & k & Hs & H).
    exists self', w', k. split; [ done | ]. split; [ apply H | ].
    intros j Hj. unfold listed.
    rewrite !rows_lookup, (saved_lookup _ _ _ _ _ j H), decide_False by done.
    destruct (orders w !! j) as [r|]; [ | done ]. cbn.
    rewrite deactivate_billing_profile.
    destruct (bool_decide (row_billing_profile r = bp)); [ | done ].
    split; by eexists.
Qed.
End ByRequestFacts.

(** X1.  For the statuses of [ORDER_STATUS_CHOICES], [get_status] is the
    display value, except that 'created' and 'paid' both read
    'Shipping Soon'; a status outside the choices reads 'Shipping Soon'
    too; the labels 'Created' and 'Paid' are never shown. *)
Theorem get_status_labels (self : Order) :
  (∀ db display,
     (db, display) ∈ ORDER_STATUS_CHOICES → status self = db →
     get_status self
       = if bool_decide (db = "created" ∨ db = "paid")
         then "Shipping Soon" else display)
  ∧ ((∀ display, (status self, display) ∉ ORDER_STATUS_CHOICES) →
     get_status self = "Shipping Soon")
  ∧ get_status self ≠ "Created" ∧ get_status self ≠ "Paid".
Proof.
  unfold get_status, ORDER_STATUS_CHOICES. split; [ | split ].
  - intros db display Hin Hst. rewrite Hst.
    repeat (apply elem_of_cons in Hin as [Hin|Hin];
            [ injection Hin as -> ->; done | ]).
    by apply elem_of_nil in Hin.
  - intros Hnot.
    repeat case_bool_decide; try done; exfalso.
    all: match goal with H : status _ = _ |- _ => rewrite H in Hnot end.
    all: first [ apply (Hnot "Shipped"); by repeat constructor
               | apply (Hnot "Refunded"); by repeat constructor
               | apply (Hnot "Cancelled"); by repeat constructor
               | apply (Hnot "Delivered"); by repeat constructor ].
  - repeat case_bool_decide; done.
Qed.

(** X10.  For a non-negative cart total and shipping_total that together
    stay below 10^97 (10^99 hundredths), the total that [update_total]
    stores and returns is non-negative, and it fits the 100 digits of the
    column.  In this range the floats are normal binary64 numbers, far from
    overflow. *)
Theorem update_total_nonneg (n : nat) (self : Order) (w : World) :
  0 ≤ cart_total (cart self) → 0 ≤ shipping_total self →
  cart_total (cart self) + shipping_total self < 10 ^ 99 →
  ∃ t self' w',
    update_total gen (S (S n)) self w = Some ((t, self'), w') ∧
    total self' = t ∧ 0 ≤ t < 10 ^ 100.
Proof.
  intros Hc Hs Hr.
  destruct (update_total_spec gen n self w) as (self' & w' & k & Hu & _ & Ht).
  exists (total self'), self', w'. split; [ done | ]. split; [ done | ].
  rewrite Ht. split; [ by apply fsum_two_nonneg | ].
  pose proof (fsum_two_accuracy (cart_total (cart self)) (shipping_total self))
    as Ha.
  fold (new_total self) in Ha |- *. lia.
Qed.

(** X11.  For a cart total and a shipping_total whose magnitudes together
    stay below 10^97 (10^99 hundredths), where the floats are normal
    binary64 numbers far from overflow, the total that [update_total]
    stores differs from the decimal sum cart.total + shipping_total by at
    most half a hundredth plus 2^-51 of |cart.total| + |shipping_total|
    (stated with both sides multiplied by 2^52), and it fits the 100 digits
    of the column. *)
Theorem update_total_accuracy (n : nat) (self : Order) (w : World) :
  Z.abs (cart_total (cart self)) + Z.abs (shipping_total self) < 10 ^ 99 →
  ∃ t self' w',
    update_total gen (S (S n)) self w = Some ((t, self'), w') ∧
    total self' = t ∧
    2 ^ 52 * Z.abs (t - (cart_total (cart self) + shipping_total self))
    ≤ 2 ^ 51
      + 2 * (Z.abs (cart_total (cart self)) + Z.abs (shipping_total self)) ∧
    Z.abs t < 10 ^ 100.
Proof.
  intros Hr.
  destruct (update_total_spec gen n self w) as (self' & w' & k & Hu & _ & Ht).
  exists (total self'), self', w'. split; [ done | ]. split; [ done | ].
  rewrite Ht.
  pose proof (fsum_two_accuracy (cart_total (cart self)) (shipping_total self))
    as Ha.
  fold (new_total self) in Ha |- *. split; [ done | lia ].
Qed.

End Extras.

(** ** The further facts at sample data *)

Lemma duplicate_world_count :
  size (rows (open_orders (Some 1%nat) sample_cart) duplicate_world) ≠ 1%nat.
Proof. vm_compute. discriminate. Qed.

(** X8, witness: two open orders already, and a third one is created. *)
Lemma get_or_new_adds_a_match_witness :
  ∃ self' w' k,
    get_or_new sample_generator 2 (Some 1%nat) sample_cart duplicate_world
      = Some ((self', true), w') ∧
    pk self' = Some k ∧
    rows (open_orders (Some 1%nat) sample_cart) w'
      = <[k := to_row self']>
          (rows (open_orders (Some 1%nat) sample_cart) duplicate_world) ∧
    size (rows (open_orders (Some 1%nat) sample_cart) w')
      = S (size (rows (open_orders (Some 1%nat) sample_cart) duplicate_world)).
Proof.
  exact (get_or_new_adds_a_match sample_generator 0 (Some 1%nat) sample_cart
           duplicate_world duplicate_world_count).
Defined.

(** X10, witness: 100.00 + 50.00. *)
Lemma update_total_nonneg_witness :
  ∃ t self' w',
    update_total sample_generator 2 (new_order (Some 1%nat) sample_cart)
      empty_world = Some ((t, self'), w') ∧
    total self' = t ∧ 0 ≤ t < 10 ^ 100.
Proof.
  apply (update_total_nonneg sample_generator 0
           (new_order (Some 1%nat) sample_cart) empty_world);
    [ discriminate | discriminate | reflexivity ].
Defined.

(** X11, witness: 70 368 744 177 614.01 + 50.00, where the stored total is
    one hundredth off. *)
Lemma update_total_accuracy_witness :
  ∃ t self' w',
    update_total sample_generator 2 (new_order (Some 1%nat) huge_cart)
      empty_world = Some ((t, self'), w') ∧
    total self' = t ∧
    2 ^ 52 * Z.abs (t - (cart_total (cart (new_order (Some 1%nat) huge_cart))
                         + shipping_total (new_order (Some 1%nat) huge_cart)))
    ≤ 2 ^ 51
      + 2 * (Z.abs (cart_total (cart (new_order (Some 1%nat) huge_cart)))
             + Z.abs (shipping_total (new_order (Some 1%nat) huge_cart))) ∧
    Z.abs t < 10 ^ 100.
Proof.
  apply (update_total_accuracy sample_generator 0
           (new_order (Some 1%nat) huge_cart) empty_world).
  reflexivity.
Defined.

Lemma ready_world_single (j : nat) :
  listed (open_orders (Some 1%nat) sample_cart) ready_world j → j = 0%nat.
Proof.
  intros [r Hr]. rewrite rows_lookup in Hr. cbn [orders ready_world] in Hr.
  destruct (decide (j = 0%nat)) as [->|Hj]; [ done | ].
  by rewrite lookup_singleton_ne in Hr.
Qed.

(** X12, witness: the ready order of row 0 is paid; the next [get_or_new]
    makes a new order. *)
Lemma paid_order_is_not_reused_witness :
  ∃ self' w',
    mark_paid sample_generator 2 (set_pk 0 (ready_order sample_cart))
      ready_world = Some (("paid", self'), w') ∧
    rows (open_orders (Some 1%nat) sample_cart) w' = ∅ ∧
    ∃ o w'' k',
      get_or_new sample_generator 2 (Some 1%nat) sample_cart w'
        = Some ((o, true), w'') ∧
      pk o = Some k' ∧ k' ≠ 0%nat.
Proof.
  apply (paid_order_is_not_reused sample_generator 0 0
           (set_pk 0 (ready_order sample_cart)) ready_world
           (Some 1%nat) sample_cart 0%nat).
  - reflexivity.
  - exact ready_world_single.
  - discriminate.
  - reflexivity.
Defined.

(** X13, witness: billing profile 2 takes over the guest's cart. *)
Lemma handover_makes_old_order_unreachable_witness :
  ∃ oB wB kB,
    create sample_generator 2 (Some 2%nat) sample_cart guest_world
      = Some (oB, wB) ∧ pk oB = Some kB ∧
    rows (open_orders (Some 1%nat) sample_cart) wB = ∅ ∧
    ∃ oA wA kA,
      get_or_new sample_generator 2 (Some 1%nat) sample_cart wB
        = Some ((oA, true), wA) ∧
      pk oA = Some kA ∧ kA ≠ kB ∧
      row_active <$> orders wA !! kB = Some false.
Proof.
  apply (handover_makes_old_order_unreachable sample_generator 0
           (Some 1%nat) (Some 2%nat) sample_cart guest_world).
  discriminate.
Defined.
